(** * Wallet: transfer preview, dashboard aggregation, login form state

    A shallow embedding of the client-side logic of the Wallet personal
    finance tracker (React/TypeScript front end):

    - [TransferPage.getConversionPreview] and [TransferPage.handleSubmit]
      (src/pages/TransferPage.tsx),
    - [calculateTotalBalance] and the monthly income / expense totals of
      the Dashboard and Analytics pages,
    - [LoginFormStateManager] (src/utils/loginFormState.ts),

    together with the two back end operations the front end calls but whose
    code is not among the sources, the transfer endpoint and the firing of
    a recurring template; these are modelled from the specification and
    marked as such.

    JavaScript numbers are IEEE 754 binary64 values.  Where a property
    depends on the value an arithmetic operation returns (the conversion
    preview, the choice of the dominant currency) the code is embedded on
    binary64 numbers, with the operations of the Standard Library's
    [SpecFloat]: modules [Number] and [Binary64].  The other definitions
    carry numbers as exact rationals ([Qc]); the properties stated on them
    concern the branch taken, the data selected and how two results of the
    program relate, not the value an operation rounds to.  Identifiers are
    integers ([Z]); strings are [string]. *)

From Stdlib Require Import QArith Qcanon Qround ZArith Lia Lqa.
From Stdlib Require Qcabs.
From Stdlib Require Import Ascii.
From Stdlib Require Import SpecFloat.
From stdpp Require Import base numbers gmap strings list.

Local Open Scope Qc_scope.

(** ** JavaScript number helpers *)

Module JS.

(** [Math.round(x)]: the integer nearest to [x], ties towards +infinity. *)
Definition Math_round (x : Qc) : Qc :=
  Qc_of_Z (Qfloor (this x + (1 # 2))).

(** [x || d] on an optional number: [undefined] and [0] are falsy. *)
Definition or_num (x : option Qc) (d : Qc) : Qc :=
  match x with
  | Some r => if decide (r = 0) then d else r
  | None => d
  end.

(** Truthiness of a number that is present: every number but [0]. *)
Definition truthy (x : Qc) : bool := bool_decide (x ≠ 0).

(** [s || d] on an optional string: [null] and the empty string are falsy. *)
Definition or_str (x : option string) (d : string) : string :=
  match x with
  | Some s => if decide (s = EmptyString) then d else s
  | None => d
  end.

End JS.

(** ** Data model (src/models) *)

Inductive Currency := USD | EGP | GBP | EUR.

Inductive AccountType := CHECKING | SAVINGS | CREDIT | DEBIT | INVESTMENT | CASH.

Inductive TransactionType := INCOME | EXPENSE | TRANSFER.

#[global] Instance Currency_eq_dec : EqDecision Currency.
Proof. solve_decision. Defined.

#[global] Instance TransactionType_eq_dec : EqDecision TransactionType.
Proof. solve_decision. Defined.

(** The string value of each member of the [Currency] enum; it is the key
    under which the currency appears in a JavaScript object. *)
Definition Currency_code (c : Currency) : string :=
  match c with
  | USD => "USD"
  | EGP => "EGP"
  | GBP => "GBP"
  | EUR => "EUR"
  end.

(** [interface Account]; a field [f] that several interfaces share is
    [acc_f] here, [tx_f] in [Transaction] and [rt_f] in
    [RecurringTransaction]. *)
Record Account := mkAccount {
  acc_id : Z;
  acc_name : string;
  acc_type : AccountType;
  initial_balance : Qc;
  acc_currency : Currency;
  acc_owner_id : Z
}.

(** A calendar date.  Where it stands for a JavaScript [Date] (the [date]
    of a transaction read through [new Date(t.date)], or [new Date()]) it
    is the calendar day on which that instant falls in the time zone of
    the browser, which is what [getMonth] and [getFullYear] look at; for a
    date string without time or with a Z stamp this can be the day before
    the one written. *)
Record Date := mkDate {
  year : Z;
  month : Z;   (* 1 .. 12 *)
  day : Z      (* 1 .. 31 *)
}.

(** [getMonth()] is zero-based; [getFullYear()] is the year. *)
Definition getMonth (d : Date) : Z := (month d - 1)%Z.
Definition getFullYear (d : Date) : Z := year d.

(** [interface Transaction] *)
Record Transaction := mkTransaction {
  tx_id : Z;
  tx_amount : Qc;
  tx_type : TransactionType;
  tx_description : option string;
  tx_date : Date;
  tx_currency : Currency;
  tx_account_id : Z;
  tx_category_id : option Z;
  tx_owner_id : Z;
  tx_recurring_transaction_id : option Z
}.

(** ** Transfer page (src/pages/TransferPage.tsx) *)

Module TransferPage.

Record TransferCreateRequest := mkTransfer {
  from_account_id : Z;
  to_account_id : Z;
  amount : Qc;
  converted_amount : option Qc;
  description : string
}.

Record ConversionPreview := mkPreview {
  originalAmount : Qc;
  convertedAmount : Qc;
  exchangeRate : Qc;
  sameCurrency : bool;
  isCustomRate : bool
}.

(** [accounts.find(a => a.id === id)] *)
Definition findAccount (accounts : list Account) (id : Z) : option Account :=
  List.find (fun a => bool_decide (acc_id a = id)) accounts.

(** [exchangeRates[currency] || 1] *)
Definition rateOf (exchangeRates : gmap string Qc) (c : Currency) : Qc :=
  JS.or_num (exchangeRates !! Currency_code c) 1.

(** The guard [useCustomRate && transferData.converted_amount &&
    transferData.converted_amount > 0]: the custom amount it lets
    through, if any. *)
Definition customAmount (useCustomRate : bool) (converted_amount : option Qc)
    : option Qc :=
  if useCustomRate then
    match converted_amount with
    | Some c => if JS.truthy c && bool_decide (0 < c) then Some c else None
    | None => None
    end
  else None.

Definition getConversionPreview
    (accounts : list Account) (exchangeRates : gmap string Qc)
    (useCustomRate : bool) (transferData : TransferCreateRequest)
    : option ConversionPreview :=
  match findAccount accounts (from_account_id transferData),
        findAccount accounts (to_account_id transferData) with
  | Some fromAccount, Some toAccount =>
    if decide (amount transferData ≤ 0) then None
    else if decide (acc_currency fromAccount = acc_currency toAccount) then
      Some {| originalAmount := amount transferData;
              convertedAmount := amount transferData;
              exchangeRate := 1;
              sameCurrency := true;
              isCustomRate := false |}
    else
      match customAmount useCustomRate (converted_amount transferData) with
      | Some custom =>
        let exchangeRate := custom / amount transferData in
        Some {| originalAmount := amount transferData;
                convertedAmount := custom;
                exchangeRate :=
                  JS.Math_round (exchangeRate * Qc_of_Z 10000) / Qc_of_Z 10000;
                sameCurrency := false;
                isCustomRate := true |}
      | None =>
        let fromRate := rateOf exchangeRates (acc_currency fromAccount) in
        let toRate := rateOf exchangeRates (acc_currency toAccount) in
        let usdAmount := amount transferData / fromRate in
        let convertedAmount := usdAmount * toRate in
        let exchangeRate := convertedAmount / amount transferData in
        Some {| originalAmount := amount transferData;
                convertedAmount :=
                  JS.Math_round (convertedAmount * Qc_of_Z 100) / Qc_of_Z 100;
                exchangeRate :=
                  JS.Math_round (exchangeRate * Qc_of_Z 10000) / Qc_of_Z 10000;
                sameCurrency := false;
                isCustomRate := false |}
      end
  | _, _ => None
  end.

(** The part of the component state that [handleSubmit] and
    [confirmTransfer] read and write, with the two observable effects:
    the [alert] dialogs raised and the bodies handed to
    [transactionService.createTransfer] (POST /transactions/transfers). *)
Record PageState := mkPage {
  transferData : TransferCreateRequest;
  useCustomRate : bool;
  showPreview : bool;
  alerts : list string;
  posted : list TransferCreateRequest
}.

Definition same_account_message : string :=
  "Please select different source and destination accounts".

Definition handleSubmit (s : PageState) : PageState :=
  if decide (from_account_id (transferData s) = to_account_id (transferData s))
  then {| transferData := transferData s;
          useCustomRate := useCustomRate s;
          showPreview := showPreview s;
          alerts := alerts s ++ [same_account_message];
          posted := posted s |}
  else {| transferData := transferData s;
          useCustomRate := useCustomRate s;
          showPreview := true;
          alerts := alerts s;
          posted := posted s |}.

(** [transferMutation.mutate(transferData)] *)
Definition confirmTransfer (s : PageState) : PageState :=
  {| transferData := transferData s;
     useCustomRate := useCustomRate s;
     showPreview := showPreview s;
     alerts := alerts s;
     posted := posted s ++ [transferData s] |}.

(** The "Confirm Transfer" button exists only inside the confirmation
    modal, rendered under [showPreview && conversionPreview]. *)
Definition confirmButtonRendered
    (accounts : list Account) (exchangeRates : gmap string Qc)
    (s : PageState) : bool :=
  showPreview s &&
  bool_decide (is_Some (getConversionPreview accounts exchangeRates
                          (useCustomRate s) (transferData s))).

End TransferPage.

(** ** Total balance and monthly totals
       (src/pages/Dashboard.tsx and the Analytics page) *)

(** A JavaScript object used as a map from currency to number.  Its
    [Object.entries] come in insertion order, and that order decides which
    currency wins a tie, so the object is an association list: assigning to
    a key that is present keeps its position, a new key goes last. *)
Module Obj.

Definition t := list (Currency * Qc).

Fixpoint get (o : t) (k : Currency) : option Qc :=
  match o with
  | [] => None
  | (k', v) :: o' => if decide (k' = k) then Some v else get o' k
  end.

Fixpoint set (o : t) (k : Currency) (v : Qc) : t :=
  match o with
  | [] => [(k, v)]
  | (k', v') :: o' =>
    if decide (k' = k) then (k', v) :: o' else (k', v') :: set o' k v
  end.

Definition entries (o : t) : list (Currency * Qc) := o.

End Obj.

(** The value [{ amount, currency }] that [calculateTotalBalance] returns. *)
Record Balance := mkBalance {
  bal_amount : Qc;
  bal_currency : Currency
}.

Module Totals.

(** [accounts.reduce((sum, account) => sum + account.initial_balance, 0)] *)
Definition sumInitialBalances (accounts : list Account) : Qc :=
  foldl (fun sum account => sum + initial_balance account) 0 accounts.

(** The reducer [(acc, account) => { acc[account.currency] =
    (acc[account.currency] || 0) + account.initial_balance; return acc }] *)
Definition add_account (acc : Obj.t) (account : Account) : Obj.t :=
  Obj.set acc (acc_currency account)
    (JS.or_num (Obj.get acc (acc_currency account)) 0
     + initial_balance account).

(** [accounts.reduce(add_account, {})] *)
Definition currencyTotals (accounts : list Account) : Obj.t :=
  foldl add_account [] accounts.

(** [Object.entries(currencyTotals).reduce((max, [currency, amount]) =>
    amount > max.amount ? { currency, amount } : max,
    { currency: Currency.USD, amount: 0 })] *)
Definition dominantCurrency (totals : Obj.t) : Balance :=
  foldl (fun max entry =>
           if decide (bal_amount max < entry.2)
           then {| bal_amount := entry.2; bal_currency := entry.1 |}
           else max)
        {| bal_amount := 0; bal_currency := USD |}
        (Obj.entries totals).

(** [calculateTotalBalance], the same text in Dashboard.tsx and in the
    Analytics page. *)
Definition calculateTotalBalance (accounts : list Account) : Balance :=
  match accounts with
  | [] => {| bal_amount := 0; bal_currency := USD |}
  | first :: _ =>
    let firstCurrency := acc_currency first in
    let allSameCurrency :=
      forallb (fun account => bool_decide (acc_currency account = firstCurrency))
              accounts in
    if allSameCurrency then
      {| bal_amount := sumInitialBalances accounts; bal_currency := firstCurrency |}
    else dominantCurrency (currencyTotals accounts)
  end.

(** One row of the "Account Breakdown" card of the Analytics page:
    [formatCurrency(account.initial_balance, account.currency)]. *)
Definition accountBreakdown (accounts : list Account) : list (string * Balance) :=
  map (fun account =>
         (acc_name account,
          {| bal_amount := initial_balance account;
             bal_currency := acc_currency account |}))
      accounts.

(** [transactions.filter(t => { const d = new Date(t.date); return
    d.getMonth() === currentMonth && d.getFullYear() === currentYear })];
    [now] is the date that [new Date()] returns, and [tx_date t] the local
    date of [new Date(t.date)]. *)
Definition monthlyTransactions (now : Date) (transactions : list Transaction)
    : list Transaction :=
  filter (fun t => getMonth (tx_date t) = getMonth now
                   ∧ getFullYear (tx_date t) = getFullYear now)
         transactions.

(** [.reduce((sum, t) => sum + t.amount, 0)] *)
Definition sumAmounts (transactions : list Transaction) : Qc :=
  foldl (fun sum t => sum + tx_amount t) 0 transactions.

End Totals.

Module Dashboard.
Import Totals.

Definition monthlyIncome (now : Date) (accounts : list Account)
    (transactions : list Transaction) : Qc :=
  let totalBalance := calculateTotalBalance accounts in
  let monthlyIncomeTransactions :=
    filter (fun t => tx_type t = INCOME) (monthlyTransactions now transactions) in
  sumAmounts
    (filter (fun t => tx_currency t = bal_currency totalBalance)
            monthlyIncomeTransactions).

Definition monthlyExpenses (now : Date) (accounts : list Account)
    (transactions : list Transaction) : Qc :=
  let totalBalance := calculateTotalBalance accounts in
  let monthlyExpenseTransactions :=
    filter (fun t => tx_type t = EXPENSE) (monthlyTransactions now transactions) in
  sumAmounts
    (filter (fun t => tx_currency t = bal_currency totalBalance)
            monthlyExpenseTransactions).

End Dashboard.

Module AnalyticsPage.
Import Totals.

Definition totalIncome (now : Date) (accounts : list Account)
    (transactions : list Transaction) : Qc :=
  let totalBalance := calculateTotalBalance accounts in
  sumAmounts
    (filter (fun t => tx_type t = INCOME
                      ∧ tx_currency t = bal_currency totalBalance)
            (monthlyTransactions now transactions)).

Definition totalExpenses (now : Date) (accounts : list Account)
    (transactions : list Transaction) : Qc :=
  let totalBalance := calculateTotalBalance accounts in
  sumAmounts
    (filter (fun t => tx_type t = EXPENSE
                      ∧ tx_currency t = bal_currency totalBalance)
            (monthlyTransactions now transactions)).

End AnalyticsPage.

(** The monthly helpers of src/services/transactionService.ts; no page
    calls them, and they do not look at the currency. *)
Module TransactionService.
Import Totals.


End TransactionService.

(** The balance the specification describes for an account: its initial
    balance plus the signed amounts of its transactions in its currency
    (income counts positively, expense negatively). *)
Module SpecBalance.

Definition signedAmount (t : Transaction) : Qc :=
  match tx_type t with
  | INCOME => tx_amount t
  | EXPENSE => - tx_amount t
  | TRANSFER => 0
  end.

Definition derivedBalance (account : Account) (transactions : list Transaction)
    : Qc :=
  initial_balance account
  + foldr (fun t sum => signedAmount t + sum) 0
      (filter (fun t => tx_account_id t = acc_id account
                        ∧ tx_currency t = acc_currency account)
              transactions).

End SpecBalance.

(** ** Login form state (src/utils/loginFormState.ts) *)

Module LoginFormStateManager.

(** The browser side: whether [typeof window !== 'undefined'] holds, and
    the content of [sessionStorage] (only touched when it does). *)
Record Env := mkEnv {
  hasWindow : bool;
  sessionStorage : gmap string string
}.

(** The private fields of the manager together with its environment. *)
Record State := mkState {
  username : string;
  password : string;
  initialized : bool;
  env : Env
}.

Definition username_key : string := "login_form_username".
Definition password_key : string := "login_form_password".

Definition setItem (k v : string) (e : Env) : Env :=
  {| hasWindow := hasWindow e; sessionStorage := <[k := v]> (sessionStorage e) |}.

Definition removeItem (k : string) (e : Env) : Env :=
  {| hasWindow := hasWindow e; sessionStorage := delete k (sessionStorage e) |}.

Definition getItem (k : string) (e : Env) : option string :=
  sessionStorage e !! k.

Definition loadFromStorage (s : State) : State :=
  if hasWindow (env s) then
    {| username := JS.or_str (getItem username_key (env s)) "";
       password := JS.or_str (getItem password_key (env s)) "";
       initialized := true;
       env := env s |}
  else s.

(** [new LoginFormStateManager()] in environment [e]. *)
Definition new (e : Env) : State :=
  loadFromStorage
    {| username := ""; password := ""; initialized := false; env := e |}.

Definition getUsername (s : State) : string * State :=
  let s' := if initialized s then s else loadFromStorage s in
  (username s', s').

Definition getPassword (s : State) : string * State :=
  let s' := if initialized s then s else loadFromStorage s in
  (password s', s').

Definition setUsername (value : string) (s : State) : State :=
  {| username := value;
     password := password s;
     initialized := initialized s;
     env := if hasWindow (env s) then setItem username_key value (env s)
            else env s |}.

Definition setPassword (value : string) (s : State) : State :=
  {| username := username s;
     password := value;
     initialized := initialized s;
     env := if hasWindow (env s) then setItem password_key value (env s)
            else env s |}.

Definition clear (s : State) : State :=
  {| username := "";
     password := "";
     initialized := initialized s;
     env := if hasWindow (env s)
            then removeItem password_key (removeItem username_key (env s))
            else env s |}.

End LoginFormStateManager.

(** ** Calendar arithmetic

    Dates of the proleptic Gregorian calendar, for the due dates of
    recurring transactions. *)

Module Calendar.
Local Open Scope Z_scope.

Definition is_leap (y : Z) : bool :=
  ((y mod 4 =? 0) && negb (y mod 100 =? 0)) || (y mod 400 =? 0).

Definition days_in_month (y m : Z) : Z :=
  if m =? 2 then (if is_leap y then 29 else 28)
  else if (m =? 4) || (m =? 6) || (m =? 9) || (m =? 11) then 30
  else 31.

Definition valid (d : Date) : Prop :=
  1 <= month d <= 12 /\ 1 <= day d <= days_in_month (year d) (month d).

(** The day after [d]. *)
Definition next_day (d : Date) : Date :=
  if day d <? days_in_month (year d) (month d)
  then mkDate (year d) (month d) (day d + 1)
  else if month d <? 12 then mkDate (year d) (month d + 1) 1
  else mkDate (year d + 1) 1 1.

Fixpoint add_days (n : nat) (d : Date) : Date :=
  match n with
  | O => d
  | S n' => add_days n' (next_day d)
  end.

(** [n] calendar months later: the day of the month is kept where the
    target month has it, and is the last day of that month otherwise. *)
Definition add_months (n : Z) (d : Date) : Date :=
  let idx := year d * 12 + (month d - 1) + n in
  let y := idx / 12 in
  let m := idx mod 12 + 1 in
  mkDate y m (Z.min (day d) (days_in_month y m)).

(** Months counted from year 0: the position of a date's month. *)
Definition month_index (d : Date) : Z := year d * 12 + (month d - 1).

(** Days from 0001-01-01 to the first day of year [y] (proleptic
    Gregorian calendar). *)
Definition days_before_year (y : Z) : Z :=
  365 * (y - 1) + (y - 1) / 4 - (y - 1) / 100 + (y - 1) / 400.

(** Days from January 1st to the first day of month [m] in year [y]. *)
Definition days_before_month (y m : Z) : Z :=
  let c := if is_leap y then 1 else 0 in
  if m =? 1 then 0 else if m =? 2 then 31
  else if m =? 3 then 59 + c else if m =? 4 then 90 + c
  else if m =? 5 then 120 + c else if m =? 6 then 151 + c
  else if m =? 7 then 181 + c else if m =? 8 then 212 + c
  else if m =? 9 then 243 + c else if m =? 10 then 273 + c
  else if m =? 11 then 304 + c else 334 + c.

(** The day number of a date: 0001-01-01 is day 1. *)
Definition ordinal (d : Date) : Z :=
  days_before_year (year d) + days_before_month (year d) (month d) + day d.

Definition date_le (a b : Date) : bool :=
  (year a <? year b)
  || ((year a =? year b)
      && ((month a <? month b)
          || ((month a =? month b) && (day a <=? day b)))).

End Calendar.

(** ** Back end operations described by the specification *)

(** Modelled from the spec: the error kinds of section 7, raised by the back
    end, whose code is not among the sources. *)
Inductive Error := ValidationError | NotFoundError | AuthError | PersistenceError.

(** [enum RecurrenceFrequency] and [interface RecurringTransaction] of the
    front end models. *)
Inductive RecurrenceFrequency := DAILY | WEEKLY | MONTHLY | QUARTERLY | YEARLY.

Record RecurringTransaction := mkRecurring {
  rt_id : Z;
  rt_name : string;
  rt_amount : Qc;
  rt_type : TransactionType;
  rt_description : option string;
  rt_currency : Currency;
  frequency : RecurrenceFrequency;
  start_date : Date;
  end_date : option Date;
  next_due_date : Date;
  is_active : bool;
  created_at : Date;
  rt_account_id : Z;
  rt_category_id : option Z;
  rt_owner_id : Z
}.

Module RecurringEngine.
Import Calendar.

(** Modelled from the spec: the period by which one firing moves
    [next_due_date] (section 4.2); the engine runs on the back end, whose
    code is not among the sources.  DAILY is one day, WEEKLY seven days,
    MONTHLY one calendar month, QUARTERLY three calendar months, YEARLY
    one calendar year; the calendar steps keep the day of the month where
    the target month has it. *)
Definition advance (f : RecurrenceFrequency) (d : Date) : Date :=
  match f with
  | DAILY => add_days 1 d
  | WEEKLY => add_days 7 d
  | MONTHLY => add_months 1 d
  | QUARTERLY => add_months 3 d
  | YEARLY => add_months 12 d
  end.

(** Modelled from the spec: creating a template (POST
    /recurring-transactions, back end not among the sources).  A new
    template is active and first due on its start date. *)
Definition create (id owner : Z) (today : Date) (name : string) (amount : Qc)
    (type : TransactionType) (currency : Currency) (f : RecurrenceFrequency)
    (start : Date) (stop : option Date) (account : Z) : RecurringTransaction :=
  {| rt_id := id; rt_name := name; rt_amount := amount; rt_type := type;
     rt_description := None; rt_currency := currency; frequency := f;
     start_date := start; end_date := stop; next_due_date := start;
     is_active := true; created_at := today; rt_account_id := account;
     rt_category_id := None; rt_owner_id := owner |}.

(** Modelled from the spec: one firing of a template (POST
    /recurring-transactions/{id}/process, back end not among the
    sources).  An inactive template is rejected ([None]).  Otherwise the
    firing creates one transaction carrying the template's amount, type,
    currency, account and category and a reference back to the template,
    moves [next_due_date] one period on, and deactivates the template
    when the new due date lies after [end_date].  [new_id] and [on] are
    the identifier and posting date the store gives the new row. *)
Definition fire (new_id : Z) (on : Date) (t : RecurringTransaction)
    : option (Transaction * RecurringTransaction) :=
  if is_active t then
    let next := advance (frequency t) (next_due_date t) in
    let still_active :=
      match end_date t with
      | Some e => date_le next e
      | None => true
      end in
    Some ({| tx_id := new_id; tx_amount := rt_amount t; tx_type := rt_type t;
             tx_description := rt_description t; tx_date := on;
             tx_currency := rt_currency t; tx_account_id := rt_account_id t;
             tx_category_id := rt_category_id t; tx_owner_id := rt_owner_id t;
             tx_recurring_transaction_id := Some (rt_id t) |},
          {| rt_id := rt_id t; rt_name := rt_name t; rt_amount := rt_amount t;
             rt_type := rt_type t; rt_description := rt_description t;
             rt_currency := rt_currency t; frequency := frequency t;
             start_date := start_date t; end_date := end_date t;
             next_due_date := next; is_active := still_active;
             created_at := created_at t;
             rt_account_id := rt_account_id t;
             rt_category_id := rt_category_id t;
             rt_owner_id := rt_owner_id t |})
  else None.

End RecurringEngine.

Module TransferOperation.
Import TransferPage.

(** Modelled from the spec: the accounts and transaction rows of the
    relational store behind the transfer endpoint (section 3). *)
Record Store := mkStore {
  accounts : list Account;
  rows : list Transaction
}.

(** [interface TransferResponse] of the front end service; its fields are
    [resp_f] here. *)
Record TransferResponse := mkResponse {
  resp_expense : Transaction;
  resp_income : Transaction;
  resp_exchange_rate : Qc;
  resp_converted_amount : Qc
}.

(** Modelled from the spec: an account with this id that the caller owns
    (the ownership precondition of section 4.1). *)
Definition ownedAccount (user id : Z) (st : Store) : option Account :=
  List.find (fun a => bool_decide (acc_id a = id) && bool_decide (acc_owner_id a = user))
            (accounts st).

(** Modelled from the spec: an identifier no stored row has yet. *)
Definition nextId (st : Store) : Z :=
  (1 + foldr (fun t m => Z.max (tx_id t) m) 0 (rows st))%Z.

Section Endpoint.
(** The conversion of section 4.1 (same currency, user-specified rate
    or computed rate): from the two currencies, the amount and the
    optional converted amount to the pair of converted amount and
    effective rate. *)
Variable convert : Currency -> Currency -> Qc -> option Qc -> Qc * Qc.

(** Modelled from the spec: the transfer endpoint (POST
    /transactions/transfers, section 4.1), whose back end code is not
    among the sources.  It fails with [ValidationError], leaving the
    store as it was, when the amount is not positive, when the two
    accounts are identical, when either account is missing or not
    owned by the caller, or when a converted amount is supplied that is
    not positive; otherwise it adds one EXPENSE row on the source
    account and one INCOME row on the destination account. *)
Definition createTransfer (user : Z) (today : Date)
    (req : TransferCreateRequest) (st : Store)
    : (Error + TransferResponse) * Store :=
  if decide (amount req ≤ 0) then (inl ValidationError, st)
  else if decide (from_account_id req = to_account_id req)
  then (inl ValidationError, st)
  else
    match ownedAccount user (from_account_id req) st,
          ownedAccount user (to_account_id req) st with
    | Some src, Some dst =>
      if match converted_amount req with
         | Some c => bool_decide (c ≤ 0)
         | None => false
         end
      then (inl ValidationError, st)
      else
        let '(converted, rate) :=
          convert (acc_currency src) (acc_currency dst) (amount req)
                  (converted_amount req) in
        let expense :=
          {| tx_id := nextId st; tx_amount := amount req; tx_type := EXPENSE;
             tx_description := Some (description req); tx_date := today;
             tx_currency := acc_currency src; tx_account_id := acc_id src;
             tx_category_id := None; tx_owner_id := user;
             tx_recurring_transaction_id := None |} in
        let income :=
          {| tx_id := (nextId st + 1)%Z; tx_amount := converted;
             tx_type := INCOME;
             tx_description := Some (description req); tx_date := today;
             tx_currency := acc_currency dst; tx_account_id := acc_id dst;
             tx_category_id := None; tx_owner_id := user;
             tx_recurring_transaction_id := None |} in
        (inr {| resp_expense := expense; resp_income := income;
                resp_exchange_rate := rate;
                resp_converted_amount := converted |},
         {| accounts := accounts st; rows := rows st ++ [expense; income] |})
    | _, _ => (inl ValidationError, st)
    end.

End Endpoint.

End TransferOperation.

(** What "one period later" means for each frequency. *)
Module Period.
Import Calendar.
Local Open Scope Z_scope.

(** How far one period of each frequency reaches from a date [d] to the
    date [d'] after it: in days for DAILY and WEEKLY, in calendar months
    with the day of the month kept where it exists for MONTHLY and
    QUARTERLY, in calendar years for YEARLY. *)
Definition one_period_later (f : RecurrenceFrequency) (d d' : Date) : Prop :=
  match f with
  | DAILY => ordinal d' = ordinal d + 1
  | WEEKLY => ordinal d' = ordinal d + 7
  | MONTHLY =>
    month_index d' = month_index d + 1
    ∧ day d' = Z.min (day d) (days_in_month (year d') (month d'))
  | QUARTERLY =>
    month_index d' = month_index d + 3
    ∧ day d' = Z.min (day d) (days_in_month (year d') (month d'))
  | YEARLY =>
    year d' = year d + 1 ∧ month d' = month d
    ∧ day d' = Z.min (day d) (days_in_month (year d') (month d'))
  end.

End Period.

(** ** The scales of the two roundings of the preview *)

Module Rounding.

Definition two_decimals : Qc := Qc_of_Z 100.
Definition four_decimals : Qc := Qc_of_Z 10000.

End Rounding.

(** ** Sample data *)

Module Sample.
Import TransferPage.

Definition checking_usd : Account :=
  mkAccount 1 "Checking" CHECKING (Qc_of_Z 100) USD 7.
Definition savings_usd : Account :=
  mkAccount 2 "Savings" SAVINGS (Qc_of_Z 250) USD 7.
Definition travel_eur : Account :=
  mkAccount 3 "Travel" CASH (Qc_of_Z 50) EUR 7.

Definition my_accounts : list Account := [checking_usd; savings_usd; travel_eur].

(** A table with 0.92 euro to the dollar. *)
Definition usd_eur_rates : gmap string Qc :=
  <["EUR" := Q2Qc (92 # 100)]> (<["USD" := 1]> ∅).

(** 10.05 dollars from Checking to Travel, no converted amount given. *)
Definition usd_to_eur : TransferCreateRequest :=
  mkTransfer 1 3 (Q2Qc (1005 # 100)) None "".

(** 3 dollars from Checking to Travel, declared to arrive as 10 euro. *)
Definition usd_to_eur_custom : TransferCreateRequest :=
  mkTransfer 1 3 (Qc_of_Z 3) (Some (Qc_of_Z 10)) "".

(** 100 dollars from Checking to Savings, with a converted amount of 150
    left over in the form. *)
Definition usd_to_usd_custom : TransferCreateRequest :=
  mkTransfer 1 2 (Qc_of_Z 100) (Some (Qc_of_Z 150)) "".

(** 100 dollars from Checking to Checking. *)
Definition to_itself : TransferCreateRequest :=
  mkTransfer 1 1 (Qc_of_Z 100) None "".

End Sample.

(** The aggregate balance per currency, stated directly. *)
Module Aggregate.

(** The sum of the initial balances of the accounts held in currency [c]. *)
Definition total_in (c : Currency) (accounts : list Account) : Qc :=
  foldr (fun account sum =>
           if decide (acc_currency account = c)
           then initial_balance account + sum else sum)
        0 accounts.

Definition held (c : Currency) (accounts : list Account) : Prop :=
  ∃ account, account ∈ accounts ∧ acc_currency account = c.

End Aggregate.

Module Sample2.

(** A euro account just opened with nothing on it, and an overdrawn
    sterling card. *)
Definition eur_empty : Account :=
  mkAccount 1 "Everyday" CHECKING 0 EUR 7.
Definition gbp_overdrawn : Account :=
  mkAccount 2 "Card" CREDIT (Qc_of_Z (-20)) GBP 7.

Definition today : Date := mkDate 2024 5 20.

(** A salary of 100 euro received this month on the euro account. *)
Definition eur_salary : Transaction :=
  mkTransaction 1 (Qc_of_Z 100) INCOME None (mkDate 2024 5 3) EUR 1 None 7 None.

(** Groceries for 30 euro paid this month from the euro account. *)
Definition eur_groceries : Transaction :=
  mkTransaction 3 (Qc_of_Z 30) EXPENSE None (mkDate 2024 5 9) EUR 1 None 7 None.

(** A refund of 50 dollars on the dollar account [Sample.checking_usd]. *)
Definition usd_refund : Transaction :=
  mkTransaction 2 (Qc_of_Z 50) INCOME None (mkDate 2024 5 4) USD 1 None 7 None.

End Sample2.

(** ** Further page logic *)

(** [interface Category] and [enum CategoryType] (src/models/Category.ts) *)
Module Category.

Inductive CategoryType := INCOME | EXPENSE.

#[global] Instance CategoryType_eq_dec : EqDecision CategoryType.
Proof. solve_decision. Defined.

Record t := mk {
  id : Z;
  name : string;
  type : CategoryType;
  owner_id : Z;
  color : option string
}.

End Category.

(** [transactionService.getMonthlyExpenses]
    (src/services/transactionService.ts). *)
Module MonthlyExpenses.

(** [.reduce((total, t) => total + Math.abs(t.amount), 0)] over the
    expenses dated in the month of [now]. *)
Definition getMonthlyExpenses (now : Date) (transactions : list Transaction)
    : Qc :=
  foldl (fun total t => total + Qcabs.Qcabs (tx_amount t)) 0
    (filter (fun t => getMonth (tx_date t) = getMonth now
                      ∧ getFullYear (tx_date t) = getFullYear now
                      ∧ tx_type t = EXPENSE)
            transactions).

End MonthlyExpenses.

(** The derived data of the Dashboard besides the totals
    (src/pages/Dashboard.tsx). *)
Module DashboardData.
Import Totals.

(** [transactions.slice(0, 5)] *)
Definition recentTransactions (transactions : list Transaction)
    : list Transaction :=
  take 5 transactions.

(** [accounts.map(account => ({ name: account.name,
    value: account.initial_balance }))] *)
Definition accountData (accounts : list Account) : list (string * Qc) :=
  map (fun account => (acc_name account, initial_balance account)) accounts.

(** The callback of the [.map] in [expenseData]: the category's name with
    the sum of the amounts of the month's transactions filed under it. *)
Definition categoryTotal (monthly : list Transaction) (cat : Category.t)
    : string * Qc :=
  (Category.name cat,
   sumAmounts (filter (fun t => tx_category_id t = Some (Category.id cat))
                      monthly)).

(** [categories.filter(cat => cat.type === 'EXPENSE').map(...)
    .filter(item => item.value > 0).slice(0, 5)] *)
Definition expenseData (now : Date) (categories : list Category.t)
    (transactions : list Transaction) : list (string * Qc) :=
  take 5
    (filter (fun item => 0 < item.2)
       (map (categoryTotal (monthlyTransactions now transactions))
          (filter (fun cat => Category.type cat = Category.EXPENSE)
                  categories))).

End DashboardData.

(** The transfer form as a whole (src/pages/TransferPage.tsx): the lists
    offered by the two selects, the [disabled] condition of the submit
    button, and the handlers of its controls.  A control fires only while
    it is rendered, a select only offers its options, and a disabled
    button does not submit.  The [transferResult] state, which only feeds
    the success banner, is left out. *)
Module TransferForm.
Import TransferPage.

(** What the queries deliver at the time of an event. *)
Record Ctx := mkCtx {
  ctx_accounts : list Account;
  ctx_exchangeRates : gmap string Qc
}.

(** [accounts.filter(a => a.id !== transferData.from_account_id)] *)
Definition availableToAccounts (accounts : list Account)
    (td : TransferCreateRequest) : list Account :=
  filter (fun a => acc_id a ≠ from_account_id td) accounts.

(** [accounts.filter(a => a.id !== transferData.to_account_id)] *)
Definition availableFromAccounts (accounts : list Account)
    (td : TransferCreateRequest) : list Account :=
  filter (fun a => acc_id a ≠ to_account_id td) accounts.

(** The [disabled] attribute of the "Preview Transfer" button:
    [!from_account_id || !to_account_id || amount <= 0 || (useCustomRate &&
    (!converted_amount || converted_amount <= 0))]. *)
Definition submitDisabled (s : PageState) : bool :=
  bool_decide (from_account_id (transferData s) = 0%Z)
  || bool_decide (to_account_id (transferData s) = 0%Z)
  || bool_decide (amount (transferData s) ≤ 0)
  || (useCustomRate s
      && match converted_amount (transferData s) with
         | Some c => negb (JS.truthy c) || bool_decide (c ≤ 0)
         | None => true
         end).

(** The state of [useState] at mount. *)
Definition initialTransferData : TransferCreateRequest :=
  {| from_account_id := 0; to_account_id := 0; amount := 0;
     converted_amount := None; description := "" |}.

Definition initial : PageState :=
  {| transferData := initialTransferData; useCustomRate := false;
     showPreview := false; alerts := []; posted := [] |}.

(** [setTransferData(...)] and the other setters, on the modelled state. *)
Definition setTransferData (td : TransferCreateRequest) (s : PageState)
    : PageState :=
  {| transferData := td; useCustomRate := useCustomRate s;
     showPreview := showPreview s; alerts := alerts s; posted := posted s |}.

Definition setUseCustomRate (b : bool) (s : PageState) : PageState :=
  {| transferData := transferData s; useCustomRate := b;
     showPreview := showPreview s; alerts := alerts s; posted := posted s |}.

Definition setShowPreview (b : bool) (s : PageState) : PageState :=
  {| transferData := transferData s; useCustomRate := useCustomRate s;
     showPreview := b; alerts := alerts s; posted := posted s |}.

(** What the user and the mutation can do to the form.  The number inputs
    carry the result of [parseFloat(e.target.value)], [None] for NaN. *)
Inductive Event :=
| SelectFrom (value : Z)
| SelectTo (value : Z)
| ChangeAmount (parsed : option Qc)
| ToggleCustomRate (checked : bool)
| ChangeConverted (parsed : option Qc)
| ChangeDescription (value : string)
| Submit
| CancelPreview
| Confirm
| TransferSucceeded.

(** Whether the control behind an event is there to be used. *)
Definition enabled (ctx : Ctx) (s : PageState) (e : Event) : bool :=
  let td := transferData s in
  let fromAccount := findAccount (ctx_accounts ctx) (from_account_id td) in
  let toAccount := findAccount (ctx_accounts ctx) (to_account_id td) in
  match e with
  | SelectFrom v =>
    bool_decide (v = 0%Z)
    || bool_decide (v ∈ acc_id <$> availableFromAccounts (ctx_accounts ctx) td)
  | SelectTo v =>
    bool_decide (v = 0%Z)
    || bool_decide (v ∈ acc_id <$> availableToAccounts (ctx_accounts ctx) td)
  | ChangeAmount _ | ChangeDescription _ => true
  | ToggleCustomRate _ =>
    match fromAccount, toAccount with
    | Some a, Some b => bool_decide (acc_currency a ≠ acc_currency b)
    | _, _ => false
    end
  | ChangeConverted _ => useCustomRate s && bool_decide (is_Some toAccount)
  | Submit => negb (submitDisabled s)
  | CancelPreview | Confirm =>
    confirmButtonRendered (ctx_accounts ctx) (ctx_exchangeRates ctx) s
  | TransferSucceeded => true
  end.

(** The handler of each control. *)
Definition handle (e : Event) (s : PageState) : PageState :=
  let td := transferData s in
  match e with
  | SelectFrom v =>
    setTransferData
      {| from_account_id := v; to_account_id := to_account_id td;
         amount := amount td; converted_amount := converted_amount td;
         description := description td |} s
  | SelectTo v =>
    setTransferData
      {| from_account_id := from_account_id td; to_account_id := v;
         amount := amount td; converted_amount := converted_amount td;
         description := description td |} s
  | ChangeAmount parsed =>
    (* amount: parseFloat(e.target.value) || 0 *)
    setTransferData
      {| from_account_id := from_account_id td;
         to_account_id := to_account_id td;
         amount := JS.or_num parsed 0;
         converted_amount := converted_amount td;
         description := description td |} s
  | ToggleCustomRate checked =>
    let s' := setUseCustomRate checked s in
    if checked then s'
    else setTransferData
           {| from_account_id := from_account_id td;
              to_account_id := to_account_id td;
              amount := amount td; converted_amount := None;
              description := description td |} s'
  | ChangeConverted parsed =>
    (* converted_amount: parseFloat(e.target.value) || undefined *)
    setTransferData
      {| from_account_id := from_account_id td;
         to_account_id := to_account_id td;
         amount := amount td;
         converted_amount :=
           match parsed with
           | Some c => if JS.truthy c then Some c else None
           | None => None
           end;
         description := description td |} s
  | ChangeDescription v =>
    setTransferData
      {| from_account_id := from_account_id td;
         to_account_id := to_account_id td;
         amount := amount td; converted_amount := converted_amount td;
         description := v |} s
  | Submit => handleSubmit s
  | CancelPreview => setShowPreview false s
  | Confirm => confirmTransfer s
  | TransferSucceeded =>
    (* onSuccess of the mutation: the form is reset *)
    {| transferData := initialTransferData; useCustomRate := false;
       showPreview := false; alerts := alerts s; posted := posted s |}
  end.

Definition step (s : PageState) (ce : Ctx * Event) : PageState :=
  if enabled ce.1 s ce.2 then handle ce.2 s else s.

(** The form after a sequence of events, from its state at mount. *)
Definition run (trace : list (Ctx * Event)) : PageState :=
  foldl step initial trace.

(** What every state of the form satisfies: source and destination
    coincide only while neither is chosen, a converted amount is held only
    with the custom-rate option on and is never zero, and the same-account
    alert has not been raised. *)
Definition form_invariant (s : PageState) : Prop :=
  (from_account_id (transferData s) = to_account_id (transferData s) →
   from_account_id (transferData s) = 0%Z)
  ∧ (∀ c, converted_amount (transferData s) = Some c →
          useCustomRate s = true ∧ c ≠ 0)
  ∧ alerts s = [].

(** A request handed to the transfer endpoint that is fit to be sent:
    between two different accounts, for a positive amount. *)
Definition well_formed (r : TransferCreateRequest) : Prop :=
  from_account_id r ≠ to_account_id r ∧ 0 < amount r.

End TransferForm.

(** Sequences of calls on the login form state
    (src/utils/loginFormState.ts). *)
Module LoginFormOps.
Import LoginFormStateManager.

Inductive Op :=
| SetUsername (value : string)
| SetPassword (value : string)
| Clear
| GetUsername
| GetPassword.

Definition apply (s : State) (op : Op) : State :=
  match op with
  | SetUsername v => setUsername v s
  | SetPassword v => setPassword v s
  | Clear => clear s
  | GetUsername => (getUsername s).2
  | GetPassword => (getPassword s).2
  end.

(** The singleton after a sequence of calls, in environment [e]. *)
Definition run (e : Env) (ops : list Op) : State := foldl apply (new e) ops.

(** In a browser the fields of an initialized manager repeat what
    sessionStorage holds under the two keys. *)
Definition coherent (s : State) : Prop :=
  hasWindow (env s) = true
  ∧ initialized s = true
  ∧ username s = default "" (sessionStorage (env s) !! username_key)
  ∧ password s = default "" (sessionStorage (env s) !! password_key).

End LoginFormOps.

(** The authentication context (src/contexts/AuthContext.tsx) with the
    calls of [authService] it makes.  The back end is a parameter: what it
    answers to each request, a value or the error the promise rejects
    with. *)
Module AuthContext.

Record User := mkUser {
  user_id : Z;
  user_username : string;
  user_email : string;
  default_currency : Currency
}.

(** A rejected promise, as far as the pages look at it:
    [err.response?.data?.detail] and [err.message]. *)
Record JsError := mkError {
  detail : option string;
  message : option string
}.

(** [new Error(msg)] *)
Definition Error_ (msg : string) : JsError :=
  {| detail := None; message := Some msg |}.

Record Server := mkServer {
  (* POST /auth/token: the [access_token] of the answer *)
  post_token : string → string → JsError + string;
  (* GET /auth/users/me with [Authorization: Bearer token] *)
  get_me : string → JsError + User;
  (* POST /auth/register *)
  post_register : string → string → string → Currency → JsError + User
}.

(** The state of the provider and the browser's [localStorage]. *)
Record State := mkState {
  user : option User;
  isLoading : bool;
  isInitialized : bool;
  localStorage : gmap string string
}.

Definition access_token_key : string := "access_token".

(** The token under which [if (token)] holds: present and not empty. *)
Definition truthy_token (stored : option string) : option string :=
  match stored with
  | Some t => if decide (t = "") then None else Some t
  | None => None
  end.

(** [authService.getCurrentUser] *)
Definition getCurrentUser (server : Server) (storage : gmap string string)
    : JsError + User :=
  match truthy_token (storage !! access_token_key) with
  | Some token => get_me server token
  | None => inl (Error_ "No access token found")
  end.

(** The state of the first render. *)
Definition atMount (storage : gmap string string) : State :=
  {| user := None; isLoading := true; isInitialized := false;
     localStorage := storage |}.

(** The effect that runs once after mount. *)
Definition initialize (server : Server) (s : State) : State :=
  match truthy_token (localStorage s !! access_token_key) with
  | Some _ =>
    match getCurrentUser server (localStorage s) with
    | inr userData =>
      {| user := Some userData; isLoading := false; isInitialized := true;
         localStorage := localStorage s |}
    | inl _ =>
      {| user := user s; isLoading := false; isInitialized := true;
         localStorage := delete access_token_key (localStorage s) |}
    end
  | None =>
    {| user := user s; isLoading := false; isInitialized := true;
       localStorage := localStorage s |}
  end.

Definition login (server : Server) (username password : string) (s : State)
    : (JsError + unit) * State :=
  if negb (isInitialized s)
  then (inl (Error_ "Authentication system not ready"), s)
  else
    match post_token server username password with
    | inl err => (inl err, s)
    | inr access_token =>
      let s1 :=
        {| user := user s; isLoading := isLoading s;
           isInitialized := isInitialized s;
           localStorage := <[access_token_key := access_token]> (localStorage s) |} in
      match getCurrentUser server (localStorage s1) with
      | inl err => (inl err, s1)
      | inr userData =>
        (inr tt,
         {| user := Some userData; isLoading := isLoading s1;
            isInitialized := isInitialized s1;
            localStorage := localStorage s1 |})
      end
    end.

Definition setIsLoading (b : bool) (s : State) : State :=
  {| user := user s; isLoading := b; isInitialized := isInitialized s;
     localStorage := localStorage s |}.

(** [register]: the account is created with the default currency of
    [authService.register], then [login] is called; [finally] ends the
    loading state either way. *)
Definition register (server : Server) (username email password : string)
    (s : State) : (JsError + unit) * State :=
  let s1 := setIsLoading true s in
  match post_register server username email password USD with
  | inl err => (inl err, setIsLoading false s1)
  | inr _ =>
    let '(result, s2) := login server username password s1 in
    (result, setIsLoading false s2)
  end.

Definition logout (s : State) : State :=
  {| user := None; isLoading := isLoading s;
     isInitialized := isInitialized s;
     localStorage := delete access_token_key (localStorage s) |}.

(** [!!user && isInitialized] *)
Definition isAuthenticated (s : State) : bool :=
  bool_decide (is_Some (user s)) && isInitialized s.

(** What the pages can ask of the provider, each with the back end as it
    answers at that time. *)
Inductive Call :=
| Login (server : Server) (username password : string)
| Register (server : Server) (username email password : string)
| Logout.

Definition call (s : State) (c : Call) : State :=
  match c with
  | Login server u p => (login server u p s).2
  | Register server u e p => (register server u e p s).2
  | Logout => logout s
  end.

(** The provider after mounting on [storage] and a sequence of calls. *)
Definition session (server : Server) (storage : gmap string string)
    (calls : list Call) : State :=
  foldl call (initialize server (atMount storage)) calls.

(** What holds of the provider once mounted, whatever is called on it. *)
Definition settled (s : State) : Prop :=
  isInitialized s = true
  ∧ isLoading s = false
  ∧ (is_Some (user s) → is_Some (localStorage s !! access_token_key)).

End AuthContext.

(** The login page (src/pages/LoginPage.tsx): its handlers, with the login
    form state and the authentication context they work on. *)
Module LoginPage.
Import LoginFormStateManager.

Record Page := mkPage {
  pg_username : string;
  pg_password : string;
  loading : bool;
  error : string
}.

#[global] Instance Page_eq_dec : EqDecision Page.
Proof. solve_decision. Defined.

Record World := mkWorld {
  page : Page;
  form : LoginFormStateManager.State;
  auth : AuthContext.State
}.

Definition login_error_key : string := "login_error".

(** A direct use of [sessionStorage] by the page. *)
Definition withStorage (f : Env → Env) (s : LoginFormStateManager.State)
    : LoginFormStateManager.State :=
  {| username := username s; password := password s;
     initialized := initialized s; env := f (env s) |}.

(** The initial values of the page's [useState] calls. *)
Definition mount (f : LoginFormStateManager.State) (a : AuthContext.State)
    : World :=
  let '(u, f1) := getUsername f in
  let '(p, f2) := getPassword f1 in
  {| page := {| pg_username := u; pg_password := p; loading := false;
                error := JS.or_str (getItem login_error_key (env f2)) "" |};
     form := f2; auth := a |}.

(** The part common to both change handlers: [if (error) { setError('');
    sessionStorage.removeItem('login_error') }]. *)
Definition clearError (w : World) : World :=
  if decide (error (page w) = "") then w
  else {| page := {| pg_username := pg_username (page w);
                     pg_password := pg_password (page w);
                     loading := loading (page w); error := "" |};
          form := withStorage (removeItem login_error_key) (form w);
          auth := auth w |}.

Definition handleUsernameChange (value : string) (w : World) : World :=
  clearError
    {| page := {| pg_username := value; pg_password := pg_password (page w);
                  loading := loading (page w); error := error (page w) |};
       form := setUsername value (form w);
       auth := auth w |}.

Definition handlePasswordChange (value : string) (w : World) : World :=
  clearError
    {| page := {| pg_username := pg_username (page w); pg_password := value;
                  loading := loading (page w); error := error (page w) |};
       form := setPassword value (form w);
       auth := auth w |}.

(** The message shown for a rejected login: [err.response.data.detail] if
    there is one, else [err.message] if there is one, else a fixed text. *)
Definition errorMessage (err : AuthContext.JsError) : string :=
  match AuthContext.detail err with
  | Some d => if decide (d = "") then
                JS.or_str (AuthContext.message err)
                  "Login failed. Please try again."
              else d
  | None => JS.or_str (AuthContext.message err)
              "Login failed. Please try again."
  end.

(** [handleSubmit] from the click to the end of its [finally] block, as
    the handler itself reads and writes the state; the renders that happen
    meanwhile, with the effect of lines 34-65, are added by [submitted]
    below. *)
Definition handleSubmit (server : AuthContext.Server) (w : World) : World :=
  if loading (page w) || AuthContext.isLoading (auth w) then w
  else
    match AuthContext.login server (pg_username (page w))
            (pg_password (page w)) (auth w) with
    | (inr _, a) =>
      {| page := {| pg_username := pg_username (page w);
                    pg_password := pg_password (page w);
                    loading := false; error := "" |};
         form := withStorage (removeItem login_error_key) (clear (form w));
         auth := a |}
    | (inl err, a) =>
      {| page := {| pg_username := pg_username (page w);
                    pg_password := pg_password (page w);
                    loading := false; error := errorMessage err |};
         form := withStorage (setItem login_error_key (errorMessage err))
                   (form w);
         auth := a |}
    end.

(** The body of the effect without dependency array (lines 34-65): a
    field the page holds empty is filled from the login form state
    ([if (!username && globalUsername) setUsername(globalUsername)], and
    the same for the password). *)
Definition effectBody (w : World) : World :=
  let '(globalUsername, f1) := getUsername (form w) in
  let '(globalPassword, f2) := getPassword f1 in
  {| page := {| pg_username := if decide (pg_username (page w) = "")
                               then globalUsername else pg_username (page w);
                pg_password := if decide (pg_password (page w) = "")
                               then globalPassword else pg_password (page w);
                loading := loading (page w);
                error := error (page w) |};
     form := f2;
     auth := auth w |}.

(** The cleanup that effect returns: [if (isAuthenticated)
    sessionStorage.removeItem('login_error')], with the [isAuthenticated]
    of the render that created it. *)
Definition effectCleanup (isAuthenticated : bool) (w : World) : World :=
  if isAuthenticated
  then {| page := page w;
          form := withStorage (removeItem login_error_key) (form w);
          auth := auth w |}
  else w.

(** A render of the page in state [w]: having no dependency array, the
    effect runs after every render, first the cleanup left by the previous
    render, which saw the provider in state [before], then the body.  When
    the body changes the state of the page there is one more render, whose
    cleanup is the one this render left. *)
Definition rendered (before : AuthContext.State) (w : World) : World :=
  let w1 := effectBody (effectCleanup (AuthContext.isAuthenticated before) w) in
  if decide (page w1 = page w) then w1
  else effectBody (effectCleanup (AuthContext.isAuthenticated (auth w)) w1).

(** A change handler and the render it causes; when the handler leaves
    the state of the page as it was, React does not render again. *)
Definition afterChange (w w' : World) : World :=
  if decide (page w' = page w) then w' else rendered (auth w) w'.

(** [handleSubmit] with the renders it causes: one after
    [setLoading(true); setError('')], while [login] is awaited; on success
    one when the provider sets the user and one after the form is
    cleared; on failure one after the error is shown and stored. *)
Definition submitted (server : AuthContext.Server) (w : World) : World :=
  if loading (page w) || AuthContext.isLoading (auth w) then w
  else
    let w1 :=
      rendered (auth w)
        {| page := {| pg_username := pg_username (page w);
                      pg_password := pg_password (page w);
                      loading := true; error := "" |};
           form := form w; auth := auth w |} in
    match AuthContext.login server (pg_username (page w))
            (pg_password (page w)) (auth w) with
    | (inr _, a) =>
      let w2 := rendered (auth w)
                  {| page := page w1; form := form w1; auth := a |} in
      rendered a
        {| page := {| pg_username := pg_username (page w2);
                      pg_password := pg_password (page w2);
                      loading := false; error := error (page w2) |};
           form := withStorage (removeItem login_error_key) (clear (form w2));
           auth := a |}
    | (inl err, a) =>
      rendered (auth w)
        {| page := {| pg_username := pg_username (page w1);
                      pg_password := pg_password (page w1);
                      loading := false; error := errorMessage err |};
           form := withStorage (setItem login_error_key (errorMessage err))
                     (form w1);
           auth := a |}
    end.

(** The first render: the initial state, then the body of the effect. *)
Definition mounted (f : LoginFormStateManager.State) (a : AuthContext.State)
    : World :=
  let w := mount f a in
  let w1 := effectBody w in
  if decide (page w1 = page w) then w1
  else effectBody (effectCleanup (AuthContext.isAuthenticated a) w1).

(** What the user does on the page, with the back end as it answers at
    the time of a submission. *)
Inductive Event :=
| ChangeUsername (value : string)
| ChangePassword (value : string)
| SubmitLogin (server : AuthContext.Server).

Definition step (w : World) (e : Event) : World :=
  match e with
  | ChangeUsername v => afterChange w (handleUsernameChange v w)
  | ChangePassword v => afterChange w (handlePasswordChange v w)
  | SubmitLogin server => submitted server w
  end.

(** The page after being mounted in environment [env0] beside a provider
    in state [a], and a sequence of events. *)
Definition run (env0 : Env) (a : AuthContext.State) (events : list Event)
    : World :=
  foldl step (mounted (new env0) a) events.

(** The page and sessionStorage agree: the form state repeats the two
    stored fields, the error shown is the error stored, and no submission
    is under way. *)
Definition mirrored (w : World) : Prop :=
  LoginFormOps.coherent (form w)
  ∧ error (page w)
    = default "" (sessionStorage (env (form w)) !! login_error_key)
  ∧ loading (page w) = false.

(** What holds between two events whatever the provider: the form state
    repeats the two stored fields, no submission is under way, and an
    error that is stored is the error shown. *)
Definition consistent (w : World) : Prop :=
  LoginFormOps.coherent (form w)
  ∧ loading (page w) = false
  ∧ ∀ e, sessionStorage (env (form w)) !! login_error_key = Some e →
         error (page w) = e.

End LoginPage.

(** The recurring transactions page (first component of the unnamed
    source part_002): editing a template and submitting the form. *)
Module RecurringTransactionsPage.

(** [interface RecurringTransaction] as it arrives from the API, with its
    dates as ISO strings. *)
Record Template := mkTemplate {
  t_id : Z;
  t_name : string;
  t_amount : Qc;
  t_type : TransactionType;
  t_description : option string;
  t_currency : Currency;
  t_frequency : RecurrenceFrequency;
  t_start_date : string;
  t_end_date : option string;
  t_next_due_date : string;
  t_is_active : bool;
  t_created_at : string;
  t_account_id : Z;
  t_category_id : option Z;
  t_owner_id : Z
}.

(** [interface RecurringTransactionFormData] *)
Record FormData := mkForm {
  f_name : string;
  f_amount : Qc;
  f_type : TransactionType;
  f_description : string;
  f_currency : Currency;
  f_frequency : RecurrenceFrequency;
  f_start_date : string;
  f_end_date : string;
  f_account_id : Z;
  f_category_id : Z
}.

(** [CreateRecurringTransactionData | UpdateRecurringTransactionData] as
    [handleSubmit] fills it. *)
Record SubmitData := mkSubmit {
  d_name : string;
  d_amount : Qc;
  d_type : TransactionType;
  d_description : option string;
  d_currency : Currency;
  d_frequency : RecurrenceFrequency;
  d_start_date : string;
  d_end_date : option string;
  d_account_id : Z;
  d_category_id : option Z
}.

(** What [handleSubmit] hands to the mutations. *)
Inductive Request :=
| CreateRequest (data : SubmitData)
| UpdateRequest (id : Z) (data : SubmitData).

Record PageState := mkPage {
  isModalOpen : bool;
  editingTransaction : option Template;
  formData : FormData
}.

(** [s.split('T')[0]]: what stands before the first "T". *)
Fixpoint before_T (s : string) : string :=
  match s with
  | EmptyString => EmptyString
  | String c rest =>
    if Ascii.eqb c "T"%char then EmptyString else String c (before_T rest)
  end.

(** [s || undefined] on a string. *)
Definition nonempty (s : string) : option string :=
  if decide (s = "") then None else Some s.

(** [n || undefined] on an identifier. *)
Definition nonzero (n : Z) : option Z :=
  if decide (n = 0%Z) then None else Some n.

Definition handleEdit (transaction : Template) (s : PageState) : PageState :=
  {| isModalOpen := true;
     editingTransaction := Some transaction;
     formData :=
       {| f_name := t_name transaction;
          f_amount := t_amount transaction;
          f_type := t_type transaction;
          f_description := JS.or_str (t_description transaction) "";
          f_currency := t_currency transaction;
          f_frequency := t_frequency transaction;
          f_start_date := before_T (t_start_date transaction);
          f_end_date :=
            match t_end_date transaction with
            | Some e => if decide (e = "") then "" else before_T e
            | None => ""
            end;
          f_account_id := t_account_id transaction;
          f_category_id :=
            match t_category_id transaction with
            | Some c => if decide (c = 0%Z) then 0%Z else c
            | None => 0%Z
            end |} |}.

Definition handleSubmit (s : PageState) : Request :=
  let submitData :=
    {| d_name := f_name (formData s);
       d_amount := f_amount (formData s);
       d_type := f_type (formData s);
       d_description := nonempty (f_description (formData s));
       d_currency := f_currency (formData s);
       d_frequency := f_frequency (formData s);
       d_start_date := f_start_date (formData s);
       d_end_date := nonempty (f_end_date (formData s));
       d_account_id := f_account_id (formData s);
       d_category_id := nonzero (f_category_id (formData s)) |} in
  match editingTransaction s with
  | Some editing => UpdateRequest (t_id editing) submitData
  | None => CreateRequest submitData
  end.

(** A string in which no "T" occurs. *)
Fixpoint no_T (s : string) : bool :=
  match s with
  | EmptyString => true
  | String c rest => negb (Ascii.eqb c "T"%char) && no_T rest
  end.

(** A date with or without a time of day after a "T". *)
Definition iso (date : string) (time : option string) : string :=
  match time with
  | Some tm => date +:+ String "T"%char tm
  | None => date
  end.

End RecurringTransactionsPage.

(** More sample data. *)
Module Sample3.

Definition food : Category.t :=
  Category.mk 1 "Food" Category.EXPENSE 7 None.
Definition salary : Category.t :=
  Category.mk 2 "Salary" Category.INCOME 7 None.

(** Groceries of 30 euro this month, filed under Food. *)
Definition groceries : Transaction :=
  mkTransaction 4 (Qc_of_Z 30) EXPENSE None (mkDate 2024 5 9) EUR 1
    (Some 1%Z) 7 None.

(** A back end that knows one user, alice, with password "secret". *)
Definition alice : AuthContext.User := AuthContext.mkUser 7 "alice" "a@x.io" EUR.

Definition server : AuthContext.Server :=
  {| AuthContext.post_token := fun u p =>
       if decide (u = "alice" ∧ p = "secret") then inr "tok-1"
       else inl {| AuthContext.detail := Some "Incorrect username or password";
                   AuthContext.message := Some "Request failed" |};
     AuthContext.get_me := fun t =>
       if decide (t = "tok-1") then inr alice
       else inl (AuthContext.Error_ "Request failed");
     AuthContext.post_register := fun _ _ _ _ =>
       inl (AuthContext.Error_ "Request failed") |}.

(** A provider that has mounted without a stored token. *)
Definition signed_out : AuthContext.State :=
  AuthContext.initialize server (AuthContext.atMount ∅).

(** The login page with the given credentials typed in. *)
Definition typed (u p : string) : LoginPage.World :=
  LoginPage.run {| LoginFormStateManager.hasWindow := true;
                   LoginFormStateManager.sessionStorage := ∅ |}
    signed_out [LoginPage.ChangeUsername u; LoginPage.ChangePassword p].

(** A monthly rent template as the API delivers it. *)
Definition rent : RecurringTransactionsPage.Template :=
  RecurringTransactionsPage.mkTemplate 5 "Rent" (Qc_of_Z 900) EXPENSE
    (Some "Flat") EUR MONTHLY "2024-01-31T00:00:00" None
    "2024-02-29T00:00:00" true "2024-01-15T10:00:00" 3 (Some 1%Z) 7.

End Sample3.

(** What the Analytics page shows of balances and totals (second
    component of the unnamed source part_002: the cards of lines 620-680
    and the Account Breakdown of lines 736-752), as a function of the two
    query results. *)
Module AnalyticsView.
Import Totals.

Record View := mkView {
  totalBalance : Balance;
  totalIncome : Qc;
  totalExpenses : Qc;
  breakdown : list (string * Balance)
}.

Definition render (now : Date) (accounts : list Account)
    (transactions : list Transaction) : View :=
  {| totalBalance := calculateTotalBalance accounts;
     totalIncome := AnalyticsPage.totalIncome now accounts transactions;
     totalExpenses := AnalyticsPage.totalExpenses now accounts transactions;
     breakdown := accountBreakdown accounts |}.

End AnalyticsView.

(** ** JavaScript numbers as binary64 values *)

(** The Number type: IEEE 754 binary64, that is [spec_float] with 53 bits
    of precision and exponents up to 1024, every operation rounding to
    nearest, ties to even. *)
Module Number.

Definition number := spec_float.

Definition prec : Z := 53.
Definition emax : Z := 1024.

(** An integer literal. *)
Definition of_Z (k : Z) : number := binary_normalize prec emax k 0 false.

Definition zero : number := of_Z 0.
Definition one : number := of_Z 1.

(** [+], [*] and [/] *)
Definition add : number → number → number := SFadd prec emax.
Definition mul : number → number → number := SFmul prec emax.
Definition div : number → number → number := SFdiv prec emax.

(** [x < y] and [x <= y]: false when either side is NaN. *)
Definition ltb : number → number → bool := SFltb.
Definition leb : number → number → bool := SFleb.

(** The number a decimal literal or a JSON number [n / scale] denotes,
    for [scale] a power of ten below 2^53 and [n] below 2^53 in absolute
    value: the binary64 number nearest to the quotient. *)
Definition decimal (n scale : Z) : number := div (of_Z n) (of_Z scale).

(** Truthiness: every number but [+0], [-0] and [NaN]. *)
Definition truthy (x : number) : bool :=
  match x with
  | S754_zero _ | S754_nan => false
  | S754_infinity _ | S754_finite _ _ _ => true
  end.

(** [x || d] on an optional number. *)
Definition or_num (x : option number) (d : number) : number :=
  match x with
  | Some r => if truthy r then r else d
  | None => d
  end.

(** [Math.round(x)]: the integral number nearest to [x], the upper one of
    two equally near; [NaN], the infinities and the zeros are returned as
    they are, a number with no fractional bits as well, and a result of
    zero has the sign of [x].  With [x = n * 2^-p] the integer is
    [floor ((n + 2^(p-1)) / 2^p)]. *)
Definition Math_round (x : number) : number :=
  match x with
  | S754_finite s m e =>
    match e with
    | Zneg p =>
      binary_normalize prec emax
        ((cond_Zopp s (Zpos m) + 2 ^ (Zpos p - 1)) / 2 ^ Zpos p) 0 s
    | _ => x
    end
  | _ => x
  end.

(** A triple that is a binary64 number: mantissa and exponent in range. *)
Definition valid (x : number) : bool := valid_binary prec emax x.

Definition is_finite (x : number) : bool :=
  match x with
  | S754_zero _ | S754_finite _ _ _ => true
  | S754_infinity _ | S754_nan => false
  end.

(** The rational a finite number stands for: [(-1)^s * m * 2^e]. *)
Definition to_Q (x : number) : Q :=
  match x with
  | S754_finite s m e =>
    match e with
    | Z0 => inject_Z (cond_Zopp s (Zpos m))
    | Zpos p => inject_Z (cond_Zopp s (Zpos m) * 2 ^ Zpos p)
    | Zneg p => cond_Zopp s (Zpos m) # 2 ^ p
    end
  | _ => 0%Q
  end.

(** [r] is an integer nearest to [x], the upper one of two equally
    near. *)
Definition nearest_integer (x r : number) : Prop :=
  is_finite r = true
  ∧ ∃ k : Z, (to_Q r == inject_Z k)%Q
             ∧ (to_Q x - (1 # 2) < inject_Z k)%Q
             ∧ (inject_Z k <= to_Q x + (1 # 2))%Q.

End Number.

(** The conversion preview (src/pages/TransferPage.tsx, lines 60-103) and
    [calculateTotalBalance] (src/pages/Dashboard.tsx, lines 42-66, and the
    Analytics page) on binary64 numbers. *)
Module Binary64.
Import Number.

(** [interface Account] *)
Record Account := mkAccount {
  acc_id : Z;
  acc_name : string;
  acc_type : AccountType;
  initial_balance : number;
  acc_currency : Currency;
  acc_owner_id : Z
}.

Record TransferCreateRequest := mkTransfer {
  from_account_id : Z;
  to_account_id : Z;
  amount : number;
  converted_amount : option number;
  description : string
}.

Record ConversionPreview := mkPreview {
  originalAmount : number;
  convertedAmount : number;
  exchangeRate : number;
  sameCurrency : bool;
  isCustomRate : bool
}.

(** [accounts.find(a => a.id === id)] *)
Definition findAccount (accounts : list Account) (id : Z) : option Account :=
  List.find (fun a => bool_decide (acc_id a = id)) accounts.

(** [exchangeRates[currency] || 1] *)
Definition rateOf (exchangeRates : gmap string number) (c : Currency)
    : number :=
  or_num (exchangeRates !! Currency_code c) one.

(** The guard [useCustomRate && transferData.converted_amount &&
    transferData.converted_amount > 0]: the custom amount it lets
    through, if any. *)
Definition customAmount (useCustomRate : bool)
    (converted_amount : option number) : option number :=
  if useCustomRate then
    match converted_amount with
    | Some c => if truthy c && ltb zero c then Some c else None
    | None => None
    end
  else None.

Definition getConversionPreview
    (accounts : list Account) (exchangeRates : gmap string number)
    (useCustomRate : bool) (transferData : TransferCreateRequest)
    : option ConversionPreview :=
  match findAccount accounts (from_account_id transferData),
        findAccount accounts (to_account_id transferData) with
  | Some fromAccount, Some toAccount =>
    if leb (amount transferData) zero then None
    else if decide (acc_currency fromAccount = acc_currency toAccount) then
      Some {| originalAmount := amount transferData;
              convertedAmount := amount transferData;
              exchangeRate := one;
              sameCurrency := true;
              isCustomRate := false |}
    else
      match customAmount useCustomRate (converted_amount transferData) with
      | Some custom =>
        let exchangeRate := div custom (amount transferData) in
        Some {| originalAmount := amount transferData;
                convertedAmount := custom;
                exchangeRate :=
                  div (Math_round (mul exchangeRate (of_Z 10000)))
                      (of_Z 10000);
                sameCurrency := false;
                isCustomRate := true |}
      | None =>
        let fromRate := rateOf exchangeRates (acc_currency fromAccount) in
        let toRate := rateOf exchangeRates (acc_currency toAccount) in
        let usdAmount := div (amount transferData) fromRate in
        let convertedAmount := mul usdAmount toRate in
        let exchangeRate := div convertedAmount (amount transferData) in
        Some {| originalAmount := amount transferData;
                convertedAmount :=
                  div (Math_round (mul convertedAmount (of_Z 100)))
                      (of_Z 100);
                exchangeRate :=
                  div (Math_round (mul exchangeRate (of_Z 10000)))
                      (of_Z 10000);
                sameCurrency := false;
                isCustomRate := false |}
      end
  | _, _ => None
  end.

(** The object [currencyTotals], from currency to number, with its
    entries in insertion order: assigning to a key that is present keeps
    its position, a new key goes last. *)
Definition Totals := list (Currency * number).

Fixpoint get (o : Totals) (k : Currency) : option number :=
  match o with
  | [] => None
  | (k', v) :: o' => if decide (k' = k) then Some v else get o' k
  end.

Fixpoint set (o : Totals) (k : Currency) (v : number) : Totals :=
  match o with
  | [] => [(k, v)]
  | (k', v') :: o' =>
    if decide (k' = k) then (k', v) :: o' else (k', v') :: set o' k v
  end.

(** The value [{ amount, currency }] that [calculateTotalBalance]
    returns. *)
Record Balance := mkBalance {
  bal_amount : number;
  bal_currency : Currency
}.

(** [accounts.reduce((sum, account) => sum + account.initial_balance, 0)] *)
Definition sumInitialBalances (accounts : list Account) : number :=
  foldl (fun sum account => add sum (initial_balance account)) zero accounts.

(** The reducer [(acc, account) => { acc[account.currency] =
    (acc[account.currency] || 0) + account.initial_balance; return acc }] *)
Definition add_account (acc : Totals) (account : Account) : Totals :=
  set acc (acc_currency account)
    (add (or_num (get acc (acc_currency account)) zero)
         (initial_balance account)).

(** [accounts.reduce(add_account, {})] *)
Definition currencyTotals (accounts : list Account) : Totals :=
  foldl add_account [] accounts.

(** [Object.entries(currencyTotals).reduce((max, [currency, amount]) =>
    amount > max.amount ? { currency, amount } : max,
    { currency: Currency.USD, amount: 0 })] *)
Definition dominantCurrency (totals : Totals) : Balance :=
  foldl (fun max entry =>
           if ltb (bal_amount max) entry.2
           then {| bal_amount := entry.2; bal_currency := entry.1 |}
           else max)
        {| bal_amount := zero; bal_currency := USD |}
        totals.

Definition calculateTotalBalance (accounts : list Account) : Balance :=
  match accounts with
  | [] => {| bal_amount := zero; bal_currency := USD |}
  | first :: _ =>
    let firstCurrency := acc_currency first in
    let allSameCurrency :=
      forallb (fun account => bool_decide (acc_currency account = firstCurrency))
              accounts in
    if allSameCurrency then
      {| bal_amount := sumInitialBalances accounts;
         bal_currency := firstCurrency |}
    else dominantCurrency (currencyTotals accounts)
  end.

End Binary64.

(** Sample data on binary64 numbers. *)
Module Sample64.
Import Number Binary64.

Definition checking_usd : Account :=
  mkAccount 1 "Checking" CHECKING (of_Z 100) USD 7.
Definition savings_usd : Account :=
  mkAccount 2 "Savings" SAVINGS (of_Z 250) USD 7.
Definition travel_eur : Account :=
  mkAccount 3 "Travel" CASH (of_Z 50) EUR 7.

Definition my_accounts : list Account :=
  [checking_usd; savings_usd; travel_eur].

(** A table with 0.85 euro to the dollar. *)
Definition usd_eur_rates : gmap string number :=
  <["EUR" := decimal 85 100]> (<["USD" := one]> ∅).

(** A table that knows the euro only. *)
Definition eur_only_rates : gmap string number :=
  <["EUR" := decimal 85 100]> ∅.

(** 1.50 dollars from Checking to Travel, no converted amount given. *)
Definition usd_to_eur : TransferCreateRequest :=
  mkTransfer 1 3 (decimal 15 10) None "".

(** 0.32 dollars from Checking to Travel, declared to arrive as 0.29
    euro. *)
Definition usd_to_eur_custom : TransferCreateRequest :=
  mkTransfer 1 3 (decimal 32 100) (Some (decimal 29 100)) "".

(** 100 dollars from Checking to Savings, with a converted amount of 150
    left over in the form. *)
Definition usd_to_usd_custom : TransferCreateRequest :=
  mkTransfer 1 2 (of_Z 100) (Some (of_Z 150)) "".

(** An account with a balance of [tenths / 10]. *)
Definition account (id : Z) (c : Currency) (tenths : Z) : Account :=
  mkAccount id "Account" CHECKING (decimal tenths 10) c 7.

(** Euro accounts of 0.1, 0.2, -0.2 and -0.1 beside a sterling card
    overdrawn by 20. *)
Definition euro_cents_and_card : list Account :=
  [account 1 EUR 1; account 2 EUR 2; account 3 EUR (-2); account 4 EUR (-1);
   account 5 GBP (-200)].

(** A euro account with nothing on it beside the overdrawn card. *)
Definition empty_and_card : list Account :=
  [account 1 EUR 0; account 5 GBP (-200)].

End Sample64.

(** * Properties *)

(** ** The conversion preview of the transfer page *)

Section ConversionPreview.
Import JS Rounding TransferPage.

Lemma positive_not_le (x : Qc) : 0 < x → ¬ x ≤ 0.
Proof. intros Hx Hle. by apply (Qclt_not_le _ _ Hx). Qed.

Lemma Qc_pos_nonzero (s : Qc) : 0 < s → s ≠ 0.
Proof. intros Hs ->. by apply (irreflexivity Qclt 0). Qed.

Lemma customAmount_Some ucr conv c :
  customAmount ucr conv = Some c ↔ ucr = true ∧ conv = Some c ∧ 0 < c.
Proof.
  unfold customAmount. split.
  - destruct ucr; [|done]. destruct conv as [c'|]; [|done].
    destruct (truthy c' && bool_decide (0 < c')) eqn:Hguard; [|done].
    intros [= ->]. apply andb_prop in Hguard as [_ Hc].
    by apply bool_decide_eq_true in Hc.
  - intros (-> & -> & Hc). unfold truthy.
    rewrite (bool_decide_eq_true_2 (c ≠ 0)) by by apply Qc_pos_nonzero.
    by rewrite (bool_decide_eq_true_2 (0 < c)).
Qed.

(** What the preview is once both accounts are found, the amount is
    positive and the currencies differ: the branch taken depends on
    [customAmount] alone. *)
Lemma cross_currency_preview accounts rates ucr td fromA toA :
  findAccount accounts (from_account_id td) = Some fromA →
  findAccount accounts (to_account_id td) = Some toA →
  0 < amount td →
  acc_currency fromA ≠ acc_currency toA →
  getConversionPreview accounts rates ucr td =
    match customAmount ucr (converted_amount td) with
    | Some custom =>
      Some {| originalAmount := amount td;
              convertedAmount := custom;
              exchangeRate :=
                Math_round (custom / amount td * four_decimals) / four_decimals;
              sameCurrency := false;
              isCustomRate := true |}
    | None =>
      let converted :=
        amount td / rateOf rates (acc_currency fromA)
        * rateOf rates (acc_currency toA) in
      Some {| originalAmount := amount td;
              convertedAmount :=
                Math_round (converted * two_decimals) / two_decimals;
              exchangeRate :=
                Math_round (converted / amount td * four_decimals) / four_decimals;
              sameCurrency := false;
              isCustomRate := false |}
    end.
Proof.
  intros Hfrom Hto Hpos Hcur. unfold getConversionPreview.
  rewrite Hfrom, Hto.
  destruct (decide (amount td ≤ 0)) as [Hle|_];
    [by destruct (positive_not_le _ Hpos)|].
  by destruct (decide (acc_currency fromA = acc_currency toA)).
Qed.

(** C6: a transfer between two accounts of the same currency previews with
    exchange rate 1 and a converted amount equal to the amount entered, and
    the exchange-rate table plays no part in it: any other table gives the
    same preview. *)
Theorem same_currency_rate_is_one accounts rates rates' ucr td fromA toA :
  findAccount accounts (from_account_id td) = Some fromA →
  findAccount accounts (to_account_id td) = Some toA →
  0 < amount td →
  acc_currency fromA = acc_currency toA →
  ∃ p, getConversionPreview accounts rates ucr td = Some p
       ∧ exchangeRate p = 1
       ∧ convertedAmount p = amount td
       ∧ sameCurrency p = true
       ∧ getConversionPreview accounts rates' ucr td = Some p.
Proof.
  intros Hfrom Hto Hpos Hcur. unfold getConversionPreview.
  rewrite Hfrom, Hto.
  destruct (decide (amount td ≤ 0)) as [Hle|_];
    [by destruct (positive_not_le _ Hpos)|].
  destruct (decide (acc_currency fromA = acc_currency toA)); [|done].
  eexists. by repeat split.
Qed.

Lemma same_currency_rate_is_one_witness :
  ∃ p, getConversionPreview Sample.my_accounts Sample.usd_eur_rates true
         Sample.usd_to_usd_custom = Some p
       ∧ exchangeRate p = 1
       ∧ convertedAmount p = Qc_of_Z 100
       ∧ sameCurrency p = true
       ∧ getConversionPreview Sample.my_accounts ∅ true
           Sample.usd_to_usd_custom = Some p.
Proof.
  apply (same_currency_rate_is_one Sample.my_accounts Sample.usd_eur_rates ∅
           true Sample.usd_to_usd_custom Sample.checking_usd Sample.savings_usd);
    reflexivity.
Defined.

End ConversionPreview.

(** ** Binary64 numbers *)

Section NumberFacts.
Import Number.
Local Open Scope Z_scope.

(** The number of binary digits of a mantissa. *)
Lemma digits2_size p : digits2_pos p = Pos.size p.
Proof. induction p; cbn; congruence. Qed.

Lemma Zdigits2_log2 m : 0 < m → Zdigits2 m = Z.log2 m + 1.
Proof.
  destruct m as [|p|p]; [lia| |lia]. intros _. cbn [Zdigits2].
  rewrite digits2_size. destruct p; cbn; lia.
Qed.

Lemma Zdigits2_nonneg m : 0 ≤ Zdigits2 m.
Proof. destruct m; cbn; lia. Qed.

(** Shifting a mantissa to the right divides it by a power of two. *)
Lemma shr_1_m mrs : 0 ≤ shr_m mrs → shr_m (shr_1 mrs) = shr_m mrs / 2.
Proof.
  destruct mrs as [m r s]. cbn [shr_m]. intros Hm.
  destruct m as [|[p|p|]|p]; cbn [shr_1 shr_m]; try lia; try reflexivity.
  - rewrite Pos2Z.inj_xI. apply (Z.div_unique _ _ _ 1); lia.
  - rewrite Pos2Z.inj_xO. apply (Z.div_unique _ _ _ 0); lia.
Qed.

Lemma iter_pos_shr_1 p : ∀ mrs, 0 ≤ shr_m mrs →
  shr_m (SpecFloat.iter_pos shr_1 p mrs) = shr_m mrs / 2 ^ Zpos p.
Proof.
  induction p as [p IH|p IH|]; intros mrs Hm; cbn [SpecFloat.iter_pos].
  - assert (0 ≤ shr_m (shr_1 mrs)) as H1
      by (rewrite shr_1_m by done; apply Z.div_pos; lia).
    assert (0 ≤ shr_m (SpecFloat.iter_pos shr_1 p (shr_1 mrs))) as H2
      by (rewrite IH by done; apply Z.div_pos; lia).
    rewrite IH, IH, shr_1_m by done.
    rewrite !Z.div_div by lia.
    f_equal. rewrite <- (Z.pow_1_r 2) at 1.
    rewrite <- !Z.pow_add_r by lia. f_equal. lia.
  - assert (0 ≤ shr_m (SpecFloat.iter_pos shr_1 p mrs)) as H2
      by (rewrite IH by done; apply Z.div_pos; lia).
    rewrite IH, IH by done.
    rewrite !Z.div_div by lia.
    f_equal. rewrite <- Z.pow_add_r by lia. f_equal. lia.
  - rewrite shr_1_m by done. reflexivity.
Qed.

Lemma shr_record_of_loc_m m l : shr_m (shr_record_of_loc m l) = m.
Proof. by destruct l as [|[]]. Qed.

Lemma fexp_eq e : fexp prec emax e = Z.max (e - 53) (-1074).
Proof. reflexivity. Qed.

(** Shifting to the exponent [fexp]: the mantissa kept and the exponent. *)
Lemma shr_fexp_spec m e l :
  0 ≤ m →
  let n := fexp prec emax (Zdigits2 m + e) - e in
  0 ≤ n →
  shr_m (shr_fexp prec emax m e l).1 = m / 2 ^ n
  ∧ (shr_fexp prec emax m e l).2 = e + n.
Proof.
  intros Hm n Hn. unfold shr_fexp, shr. fold n.
  destruct n as [|p|p] eqn:Hp; cbn [fst snd].
  - rewrite shr_record_of_loc_m, Z.div_1_r. lia.
  - rewrite iter_pos_shr_1, shr_record_of_loc_m
      by by rewrite shr_record_of_loc_m.
    done.
  - lia.
Qed.

Lemma Zdigits2_shift m n :
  0 ≤ m → 0 ≤ n → Zdigits2 (m / 2 ^ n) = Z.max 0 (Zdigits2 m - n).
Proof.
  intros Hm Hn.
  destruct (decide (m = 0)) as [->|Hm0].
  { rewrite Z.div_0_l by lia. cbn. lia. }
  rewrite <- Z.shiftr_div_pow2 by done.
  destruct (decide (Z.shiftr m n = 0)) as [H0|Hpos].
  - rewrite H0. cbn [Zdigits2].
    apply Z.shiftr_eq_0_iff in H0 as [->|[_ Hlog]]; [done|].
    rewrite Zdigits2_log2 by lia. lia.
  - assert (0 < Z.shiftr m n) as Hgt.
    { pose proof (proj2 (Z.shiftr_nonneg m n) Hm). lia. }
    rewrite !Zdigits2_log2 by lia. rewrite Z.log2_shiftr by lia.
    assert (n ≤ Z.log2 m); [|lia].
    apply Z.nlt_ge. intros Hlt. apply Hpos.
    apply Z.shiftr_eq_0; lia.
Qed.

Lemma round_nearest_even_cases m l :
  round_nearest_even m l = m ∨ round_nearest_even m l = m + 1.
Proof.
  destruct l as [|[]]; cbn; auto. destruct (Z.even m); auto.
Qed.

Lemma Zdigits2_succ m :
  0 ≤ m →
  Zdigits2 (m + 1) = Zdigits2 m
  ∨ (Zdigits2 (m + 1) = Zdigits2 m + 1 ∧ m + 1 = 2 ^ Zdigits2 m).
Proof.
  intros Hm. destruct (decide (m = 0)) as [->|Hm0]; [right; done|].
  rewrite !Zdigits2_log2 by lia. rewrite !Z.add_1_r.
  destruct (Z.log2_succ_or m) as [Hs|Hs]; [right|left; lia].
  split; [lia|]. pose proof Hs as Hpow.
  apply Z.log2_eq_succ_iff_pow2 in Hpow as [b Hb]; [|lia].
  assert (0 ≤ b) as Hb0.
  { destruct (Z.le_gt_cases 0 b); [done|].
    rewrite Z.pow_neg_r in Hb; lia. }
  rewrite Hb, Z.log2_pow2 in Hs by done. by rewrite <- Hs.
Qed.

(** Rounding a mantissa that is not below the exponent of its magnitude
    gives a binary64 number. *)
Lemma binary_round_aux_valid sx mx ex lx :
  0 ≤ mx → ex ≤ fexp prec emax (Zdigits2 mx + ex) →
  valid (binary_round_aux prec emax sx mx ex lx) = true.
Proof.
  intros Hm He. unfold binary_round_aux.
  destruct (shr_fexp_spec mx ex lx Hm) as [Hm1 He1]; [lia|].
  destruct (shr_fexp prec emax mx ex lx) as [mrs1 e1]. cbn [fst snd] in *.
  set (n1 := fexp prec emax (Zdigits2 mx + ex) - ex) in *.
  assert (0 ≤ shr_m mrs1) as Hm1pos.
  { rewrite Hm1. apply Z.div_pos; [done|]. apply Z.pow_pos_nonneg; lia. }
  pose proof (Zdigits2_shift mx n1 Hm ltac:(lia)) as Hd1.
  rewrite <- Hm1 in Hd1.
  set (m2 := round_nearest_even (shr_m mrs1) (loc_of_shr_record mrs1)).
  assert (0 ≤ m2) as Hm2pos.
  { subst m2. destruct (round_nearest_even_cases (shr_m mrs1)
                          (loc_of_shr_record mrs1)) as [->| ->]; lia. }
  assert (Zdigits2 m2 = Zdigits2 (shr_m mrs1)
          ∨ Zdigits2 m2 = Zdigits2 (shr_m mrs1) + 1) as Hd2.
  { subst m2. destruct (round_nearest_even_cases (shr_m mrs1)
                          (loc_of_shr_record mrs1)) as [->| ->]; [by left|].
    destruct (Zdigits2_succ _ Hm1pos) as [?|[? _]]; auto. }
  pose proof (fexp_eq (Zdigits2 mx + ex)) as Hf1.
  pose proof (fexp_eq (Zdigits2 m2 + e1)) as Hf2.
  destruct (shr_fexp_spec m2 e1 loc_Exact Hm2pos) as [Hm3 He3]; [lia|].
  destruct (shr_fexp prec emax m2 e1 loc_Exact) as [mrs3 e3].
  cbn [fst snd] in *.
  set (n2 := fexp prec emax (Zdigits2 m2 + e1) - e1) in *.
  pose proof (Zdigits2_shift m2 n2 Hm2pos ltac:(lia)) as Hd3.
  rewrite <- Hm3 in Hd3.
  destruct (shr_m mrs3) as [|m|m] eqn:Hm3'; [done| |done].
  destruct (e3 <=? emax - prec) eqn:Hle; [|done].
  unfold valid, valid_binary, bounded, canonical_mantissa.
  rewrite Hle, andb_true_r. apply Z.eqb_eq.
  pose proof (fexp_eq (Z.pos (digits2_pos m) + e3)) as Hf3.
  cbn [Zdigits2] in Hd3. lia.
Qed.

(** The product of two binary64 numbers and the quotient of any two
    numbers are binary64 numbers. *)
Lemma mul_valid x y :
  valid x = true → valid y = true → valid (mul x y) = true.
Proof.
  destruct x as [sx|sx| |sx mx ex], y as [sy|sy| |sy my ey]; try done.
  unfold valid, valid_binary, bounded, canonical_mantissa.
  intros [Hx _]%andb_prop [Hy _]%andb_prop.
  apply Z.eqb_eq in Hx, Hy. rewrite fexp_eq in Hx, Hy.
  apply binary_round_aux_valid; [done|]. rewrite fexp_eq.
  rewrite Zdigits2_log2 by done. rewrite !digits2_size in *.
  pose proof (Z.log2_mul_below (Z.pos mx) (Z.pos my) eq_refl eq_refl) as Hlog.
  change (Z.pos (mx * my)) with (Z.pos mx * Z.pos my).
  assert (Z.pos (Pos.size mx) = Z.log2 (Z.pos mx) + 1) as Hsx
    by (rewrite <- digits2_size; apply (Zdigits2_log2 (Z.pos mx)); lia).
  assert (Z.pos (Pos.size my) = Z.log2 (Z.pos my) + 1) as Hsy
    by (rewrite <- digits2_size; apply (Zdigits2_log2 (Z.pos my)); lia).
  pose proof (Z.log2_nonneg (Z.pos mx)). pose proof (Z.log2_nonneg (Z.pos my)).
  lia.
Qed.

Lemma Zdigits2_bounds m :
  0 < m → 2 ^ (Zdigits2 m - 1) ≤ m < 2 ^ Zdigits2 m.
Proof.
  intros Hm. rewrite Zdigits2_log2 by done.
  replace (Z.log2 m + 1 - 1) with (Z.log2 m) by lia.
  rewrite Z.add_1_r. by apply Z.log2_spec.
Qed.

Lemma Zdigits2_lower m k : 0 ≤ k → 2 ^ k ≤ m → k + 1 ≤ Zdigits2 m.
Proof.
  intros Hk Hm. assert (0 < m) by (pose proof (Z.pow_pos_nonneg 2 k); lia).
  rewrite Zdigits2_log2 by done.
  apply Z.log2_le_pow2 in Hm; lia.
Qed.

Lemma div_valid x y : valid (div x y) = true.
Proof.
  destruct x as [sx|sx| |sx mx ex], y as [sy|sy| |sy my ey]; try done.
  unfold div, SFdiv, SFdiv_core_binary.
  set (d1 := Zdigits2 (Z.pos mx)). set (d2 := Zdigits2 (Z.pos my)).
  set (e' := Z.min (fexp prec emax (d1 + ex - (d2 + ey))) (ex - ey)).
  set (s := ex - ey - e').
  set (m' := match s with
             | 0 => Z.pos mx
             | Z.pos _ => Z.shiftl (Z.pos mx) s
             | Z.neg _ => 0
             end).
  assert (0 ≤ s) as Hs by lia.
  assert (m' = Z.pos mx * 2 ^ s) as Hm'.
  { subst m'. destruct s as [|p|p] eqn:Hp; [lia| |lia].
    by rewrite Z.shiftl_mul_pow2. }
  clearbody m'.
  pose proof (Z_div_mod m' (Z.pos my) eq_refl) as Hdiv.
  destruct (Z.div_eucl m' (Z.pos my)) as [q r].
  destruct Hdiv as [Hq Hr].
  assert (0 < 2 ^ s) as Hpow by (apply Z.pow_pos_nonneg; lia).
  assert (0 ≤ q) as Hq0 by nia.
  apply binary_round_aux_valid; [done|].
  pose proof (fexp_eq (d1 + ex - (d2 + ey))) as Hf.
  pose proof (fexp_eq (Zdigits2 q + e')) as Hf'.
  destruct (Zdigits2_bounds (Z.pos mx) eq_refl) as [Hlo1 _].
  destruct (Zdigits2_bounds (Z.pos my) eq_refl) as [_ Hhi2].
  fold d1 in Hlo1. fold d2 in Hhi2.
  assert (1 ≤ d1) by (subst d1; cbn; lia).
  assert (1 ≤ d2) by (subst d2; cbn; lia).
  assert (d1 + s - d2 ≤ Zdigits2 q ∨ (q = 0 ∧ d1 + s ≤ d2)) as Hdq.
  { destruct (Z.le_gt_cases (d1 + s) d2) as [Hsmall|Hbig].
    - destruct (decide (q = 0)) as [->|]; [by right|left].
      pose proof (Zdigits2_nonneg q). lia.
    - left. set (K := d1 + s - d2 - 1).
      assert (0 ≤ K) by lia.
      assert (2 ^ K ≤ q); [|pose proof (Zdigits2_lower q K); lia].
      assert (2 ^ d2 * 2 ^ K = 2 ^ (d1 - 1) * 2 ^ s) as Hprod.
      { rewrite <- !Z.pow_add_r by lia. f_equal. lia. }
      assert (0 < 2 ^ K) by (apply Z.pow_pos_nonneg; lia).
      apply Z.nlt_ge. intros Hlt.
      assert (q + 1 ≤ 2 ^ K) by lia.
      assert (m' < Z.pos my * 2 ^ K) by nia.
      nia. }
  destruct Hdq as [Hdq|[-> Hdq]]; cbn [Zdigits2] in *; lia.
Qed.

(** A mantissa and exponent in range are left as they are. *)
Lemma binary_round_aux_canonical s m e :
  canonical_mantissa prec emax m e = true → e ≤ emax - prec →
  binary_round_aux prec emax s (Z.pos m) e loc_Exact = S754_finite s m e.
Proof.
  intros Hcan He. unfold binary_round_aux, shr_fexp.
  unfold canonical_mantissa in Hcan. apply Z.eqb_eq in Hcan.
  cbn [Zdigits2 shr_record_of_loc]. rewrite Hcan, Z.sub_diag.
  cbn [shr loc_of_shr_record round_nearest_even shr_m Zdigits2].
  rewrite Hcan, Z.sub_diag. cbn [shr shr_m shr_record_of_loc].
  by rewrite (proj2 (Z.leb_le _ _) He).
Qed.

Lemma digits2_pos_iter p q :
  Z.pos (digits2_pos (Pos.iter xO p q)) = Z.pos (digits2_pos p) + Z.pos q.
Proof.
  induction q as [|q IH] using Pos.peano_ind; cbn.
  - lia.
  - rewrite Pos.iter_succ. cbn [digits2_pos]. lia.
Qed.

Lemma pos_iter_xO p q : Z.pos (Pos.iter xO p q) = Z.pos p * 2 ^ Z.pos q.
Proof.
  induction q as [|q IH] using Pos.peano_ind; cbn.
  - lia.
  - rewrite Pos.iter_succ, Pos2Z.inj_xO, IH, Pos2Z.inj_succ, Z.pow_succ_r; lia.
Qed.

(** An integer of at most 53 bits is a binary64 number. *)
Lemma binary_round_small s p :
  Z.pos (digits2_pos p) ≤ 53 →
  ∃ m e, binary_round prec emax s p 0 = S754_finite s m e
         ∧ e ≤ 0 ∧ Z.pos m = Z.pos p * 2 ^ (- e)
         ∧ valid (S754_finite s m e) = true.
Proof.
  intros Hd. unfold binary_round, shl_align.
  pose proof (fexp_eq (Z.pos (digits2_pos p) + 0)) as Hf.
  destruct (fexp prec emax (Z.pos (digits2_pos p) + 0) - 0) as [|q|q] eqn:Hq;
    [| lia |].
  - assert (canonical_mantissa prec emax p 0 = true) as Hcan
      by (unfold canonical_mantissa; apply Z.eqb_eq; lia).
    exists p, 0. rewrite binary_round_aux_canonical by done.
    split_and!; [done|done|cbn; lia|].
    unfold valid, valid_binary, bounded. by rewrite Hcan.
  - assert (fexp prec emax (Z.pos (digits2_pos p) + 0) = Z.neg q) as He by lia.
    rewrite He.
    assert (canonical_mantissa prec emax (Pos.iter xO p q) (Z.neg q) = true)
      as Hcan.
    { unfold canonical_mantissa. apply Z.eqb_eq.
      rewrite fexp_eq, digits2_pos_iter. lia. }
    exists (Pos.iter xO p q), (Z.neg q).
    rewrite binary_round_aux_canonical by done.
    split_and!; [done|done|by rewrite pos_iter_xO|].
    unfold valid, valid_binary, bounded. by rewrite Hcan.
Qed.

Lemma to_Q_scaled s m e p :
  e ≤ 0 → Z.pos m = Z.pos p * 2 ^ (- e) →
  (to_Q (S754_finite s m e) == inject_Z (cond_Zopp s (Z.pos p)))%Q.
Proof.
  intros He Hm. unfold to_Q. destruct e as [|q|q]; [|lia|].
  - cbn in Hm. replace (Z.pos m) with (Z.pos p) by lia. reflexivity.
  - cbn [Z.opp] in Hm. unfold Qeq, inject_Z. cbn [Qnum Qden].
    rewrite Pos2Z.inj_pow. change (- Z.neg q) with (Z.pos q) in Hm.
    destruct s; unfold cond_Zopp; rewrite Hm; ring.
Qed.

Lemma binary_normalize_small k s :
  Z.abs k ≤ 2 ^ 52 →
  is_finite (binary_normalize prec emax k 0 s) = true
  ∧ valid (binary_normalize prec emax k 0 s) = true
  ∧ (to_Q (binary_normalize prec emax k 0 s) == inject_Z k)%Q.
Proof.
  intros Hk. destruct k as [|p|p]; cbn [binary_normalize].
  - done.
  - assert (Z.pos (digits2_pos p) ≤ 53) as Hd.
    { change (Zdigits2 (Z.pos p) ≤ 53). rewrite Zdigits2_log2 by done.
      assert (Z.log2 (Z.pos p) ≤ Z.log2 (2 ^ 52))
        by (apply Z.log2_le_mono; lia).
      rewrite Z.log2_pow2 in H; lia. }
    destruct (binary_round_small false p Hd) as (m & e & -> & He & Hm & Hv).
    split_and!; [done|done|]. by rewrite (to_Q_scaled _ _ _ p).
  - assert (Z.pos (digits2_pos p) ≤ 53) as Hd.
    { change (Zdigits2 (Z.pos p) ≤ 53). rewrite Zdigits2_log2 by done.
      assert (Z.log2 (Z.pos p) ≤ Z.log2 (2 ^ 52))
        by (apply Z.log2_le_mono; lia).
      rewrite Z.log2_pow2 in H; lia. }
    destruct (binary_round_small true p Hd) as (m & e & -> & He & Hm & Hv).
    split_and!; [done|done|]. by rewrite (to_Q_scaled _ _ _ p).
Qed.

Lemma Qfloor_half_integer (n : Z) : Qfloor (inject_Z n + (1 # 2)) = n.
Proof.
  unfold Qfloor, Qplus, inject_Z. cbn [Qnum Qden].
  symmetry. apply (Z.div_unique _ _ _ 1); lia.
Qed.

Lemma Qfloor_half_dyadic (n : Z) (p : positive) :
  Qfloor ((n # 2 ^ p) + (1 # 2)) = (n + 2 ^ (Z.pos p - 1)) / 2 ^ Z.pos p.
Proof.
  unfold Qfloor, Qplus. cbn [Qnum Qden].
  rewrite Pos2Z.inj_mul, Pos2Z.inj_pow.
  assert (2 ^ Z.pos p = 2 * 2 ^ (Z.pos p - 1)) as Hp.
  { rewrite <- Z.pow_succ_r by lia. f_equal. lia. }
  assert (0 < 2 ^ (Z.pos p - 1)) by (apply Z.pow_pos_nonneg; lia).
  rewrite Hp.
  replace (n * 2 + 1 * (2 * 2 ^ (Z.pos p - 1)))
    with (2 * (n + 2 ^ (Z.pos p - 1))) by lia.
  replace (2 * 2 ^ (Z.pos p - 1) * 2) with (2 * (2 * 2 ^ (Z.pos p - 1))) by lia.
  rewrite Z.div_mul_cancel_l by lia. done.
Qed.

(** [Math.round] of a finite binary64 number is the integer
    [floor (x + 1/2)], and that integer is a binary64 number. *)
Lemma Math_round_floor x :
  valid x = true → is_finite x = true →
  is_finite (Math_round x) = true
  ∧ valid (Math_round x) = true
  ∧ (to_Q (Math_round x) == inject_Z (Qfloor (to_Q x + (1 # 2))))%Q.
Proof.
  intros Hv Hfin. destruct x as [s|s| |s m e]; try done.
  destruct e as [|p|p].
  - split_and!; [done|done|]. cbn [Math_round to_Q].
    by rewrite Qfloor_half_integer.
  - split_and!; [done|done|]. cbn [Math_round to_Q].
    by rewrite Qfloor_half_integer.
  - cbn [Math_round to_Q]. rewrite Qfloor_half_dyadic.
    apply binary_normalize_small.
    unfold valid, valid_binary, bounded, canonical_mantissa in Hv.
    apply andb_prop in Hv as [Hcan _]. apply Z.eqb_eq in Hcan.
    rewrite fexp_eq in Hcan.
    destruct (Zdigits2_bounds (Z.pos m) eq_refl) as [_ Hhi].
    cbn [Zdigits2] in Hhi.
    assert (Z.pos m < 2 ^ 53) as Hm.
    { eapply Z.lt_le_trans; [exact Hhi|]. apply Z.pow_le_mono_r; lia. }
    assert (2 ^ Z.pos p = 2 * 2 ^ (Z.pos p - 1)) as Hp.
    { rewrite <- Z.pow_succ_r by lia. f_equal. lia. }
    assert (0 < 2 ^ (Z.pos p - 1)) as Hh by (apply Z.pow_pos_nonneg; lia).
    set (h := 2 ^ (Z.pos p - 1)) in *. rewrite Hp.
    assert (- 2 ^ 53 < cond_Zopp s (Z.pos m) < 2 ^ 53) as Hn
      by (destruct s; cbn [cond_Zopp]; lia).
    set (n := cond_Zopp s (Z.pos m)) in *. clearbody n h.
    apply Z.abs_le. split.
    + apply Z.div_le_lower_bound; lia.
    + assert ((n + h) / (2 * h) < 2 ^ 52 + 1); [|lia].
      apply Z.div_lt_upper_bound; lia.
Qed.

(** [Math.round] of a finite binary64 number is an integer nearest to
    it. *)
Lemma Math_round_nearest x :
  valid x = true → is_finite x = true → nearest_integer x (Math_round x).
Proof.
  intros Hv Hfin. destruct (Math_round_floor x Hv Hfin) as (Hf & _ & Hq).
  split; [done|]. exists (Qfloor (to_Q x + (1 # 2))). split; [done|].
  pose proof (Qfloor_le (to_Q x + (1 # 2))) as Hle.
  pose proof (Qlt_floor (to_Q x + (1 # 2))) as Hlt.
  rewrite inject_Z_plus in Hlt. change (inject_Z 1) with 1%Q in Hlt.
  split; lra.
Qed.

(** [<] is a strict order on numbers. *)
Lemma ltb_irrefl x : ltb x x = false.
Proof.
  destruct x as [[]|[]| |[] m e]; try done; unfold ltb, SFltb, SFcompare;
    rewrite Z.compare_refl, Pos.compare_cont_refl; done.
Qed.

Lemma ltb_trans x y z : ltb x y = true → ltb y z = true → ltb x z = true.
Proof.
  unfold ltb, SFltb, SFcompare.
  destruct x as [[]|[]| |[] mx ex], y as [[]|[]| |[] my ey],
           z as [[]|[]| |[] mz ez]; try done;
    change (Pos.compare_cont Eq) with Pos.compare;
    destruct (Z.compare_spec ex ey), (Z.compare_spec ey ez),
             (Z.compare_spec ex ez); try done; try lia;
    destruct (Pos.compare_spec mx my), (Pos.compare_spec my mz),
             (Pos.compare_spec mx mz); try done; try lia.
Qed.

Lemma ltb_asym x y : ltb x y = true → ltb y x = false.
Proof.
  intros Hxy. destruct (ltb y x) eqn:Hyx; [|done].
  by rewrite <- (ltb_irrefl x), (ltb_trans x y x).
Qed.

Lemma ltb_false_trans x y z :
  ltb x y = true → ltb x z = false → ltb y z = false.
Proof.
  intros Hxy Hxz. destruct (ltb y z) eqn:Hyz; [|done].
  by rewrite (ltb_trans x y z) in Hxz.
Qed.

End NumberFacts.

(** ** The conversion preview on binary64 numbers *)

Section ConversionPreview64.
Import Number Binary64.

Lemma number_positive_not_le x : ltb zero x = true → leb x zero = false.
Proof. by destruct x as [[]|[]| |[] m e]. Qed.

Lemma number_positive_truthy x : ltb zero x = true → truthy x = true.
Proof. by destruct x as [[]|[]| |[] m e]. Qed.


Lemma rate_absent rates c :
  rates !! Currency_code c = None → rateOf rates c = one.
Proof. intros Hr. unfold rateOf, or_num. by rewrite Hr. Qed.


Lemma custom_amount_Some ucr conv c :
  customAmount ucr conv = Some c ↔ ucr = true ∧ conv = Some c ∧ ltb zero c = true.
Proof.
  unfold customAmount. split.
  - destruct ucr; [|done]. destruct conv as [c'|]; [|done].
    destruct (truthy c' && ltb zero c') eqn:Hguard; [|done].
    intros [= ->]. by apply andb_prop in Hguard as [_ Hc].
  - intros (-> & -> & Hc). by rewrite (number_positive_truthy _ Hc), Hc.
Qed.


Lemma cross_currency_preview_b64 accounts rates ucr td fromA toA :
  findAccount accounts (from_account_id td) = Some fromA →
  findAccount accounts (to_account_id td) = Some toA →
  ltb zero (amount td) = true →
  acc_currency fromA ≠ acc_currency toA →
  getConversionPreview accounts rates ucr td =
    match customAmount ucr (converted_amount td) with
    | Some custom =>
      Some {| originalAmount := amount td;
              convertedAmount := custom;
              exchangeRate :=
                div (Math_round (mul (div custom (amount td)) (of_Z 10000)))
                    (of_Z 10000);
              sameCurrency := false;
              isCustomRate := true |}
    | None =>
      let converted :=
        mul (div (amount td) (rateOf rates (acc_currency fromA)))
            (rateOf rates (acc_currency toA)) in
      Some {| originalAmount := amount td;
              convertedAmount :=
                div (Math_round (mul converted (of_Z 100))) (of_Z 100);
              exchangeRate :=
                div (Math_round (mul (div converted (amount td)) (of_Z 10000)))
                    (of_Z 10000);
              sameCurrency := false;
              isCustomRate := false |}
    end.
Proof.
  intros Hfrom Hto Hpos Hcur. unfold getConversionPreview.
  rewrite Hfrom, Hto, (number_positive_not_le _ Hpos).
  by destruct (decide (acc_currency fromA = acc_currency toA)).
Qed.



(** C9: in a cross-currency conversion at the computed rate, a currency
    that the exchange-rate table does not list does not make the preview
    fail: its rate is taken to be 1, and a converted amount and an exchange
    rate are produced all the same, by the same binary64 operations. *)
Theorem missing_rate_defaults_to_one accounts rates ucr td fromA toA :
  findAccount accounts (from_account_id td) = Some fromA →
  findAccount accounts (to_account_id td) = Some toA →
  ltb zero (amount td) = true →
  acc_currency fromA ≠ acc_currency toA →
  customAmount ucr (converted_amount td) = None →
  rates !! Currency_code (acc_currency fromA) = None
  ∨ rates !! Currency_code (acc_currency toA) = None →
  ∃ p fromRate toRate,
    getConversionPreview accounts rates ucr td = Some p
    ∧ fromRate = rateOf rates (acc_currency fromA)
    ∧ toRate = rateOf rates (acc_currency toA)
    ∧ (rates !! Currency_code (acc_currency fromA) = None → fromRate = one)
    ∧ (rates !! Currency_code (acc_currency toA) = None → toRate = one)
    ∧ (let converted := mul (div (amount td) fromRate) toRate in
       convertedAmount p
       = div (Math_round (mul converted (of_Z 100))) (of_Z 100)
       ∧ exchangeRate p
         = div (Math_round (mul (div converted (amount td)) (of_Z 10000)))
               (of_Z 10000)).
Proof.
  intros Hfrom Hto Hpos Hcur Hcomputed _.
  rewrite (cross_currency_preview_b64 _ rates ucr _ _ _ Hfrom Hto Hpos Hcur).
  rewrite Hcomputed. cbv zeta.
  eexists _, _, _. split; [reflexivity|]. cbn.
  split_and!; try reflexivity; apply rate_absent.
Qed.

Lemma missing_rate_defaults_to_one_witness :
  ∃ p, getConversionPreview Sample64.my_accounts Sample64.eur_only_rates false
         Sample64.usd_to_eur = Some p
       ∧ convertedAmount p = decimal 127 100
       ∧ exchangeRate p = decimal 85 100.
Proof.
  destruct (missing_rate_defaults_to_one Sample64.my_accounts
              Sample64.eur_only_rates false Sample64.usd_to_eur
              Sample64.checking_usd Sample64.travel_eur)
    as (p & fromRate & toRate & Hp & -> & -> & _ & _ & Hconv & Hrate);
    [reflexivity | reflexivity | reflexivity | discriminate | reflexivity
    | left; reflexivity |].
  exists p. split; [exact Hp|]. rewrite Hconv, Hrate.
  split; vm_compute; reflexivity.
Defined.

(** C5 as stated does not hold: between two accounts of the same currency
    the rate previewed is 1 whatever converted amount the form still holds
    (here 150 for 100, whose ratio rounds to 1.5). *)
Lemma custom_amount_ignored_for_same_currency :
  ¬ (∀ accounts rates ucr td c p,
       converted_amount td = Some c → ltb zero c = true →
       getConversionPreview accounts rates ucr td = Some p →
       exchangeRate p
       = div (Math_round (mul (div c (amount td)) (of_Z 10000))) (of_Z 10000)).
Proof.
  intros Hclaim.
  specialize (Hclaim Sample64.my_accounts Sample64.usd_eur_rates true
                Sample64.usd_to_usd_custom (of_Z 150) _
                eq_refl eq_refl eq_refl).
  vm_compute in Hclaim. discriminate.
Qed.

(** The rounding is that of the binary64 operations: 0.29 for 0.32
    previews the rate 0.9062, the binary64 quotient times 10000 being just
    below 9062.5. *)
Lemma custom_rate_rounds_the_binary64_quotient :
  exchangeRate
  <$> getConversionPreview Sample64.my_accounts Sample64.usd_eur_rates true
        Sample64.usd_to_eur_custom
  = Some (decimal 9062 10000).
Proof. vm_compute. reflexivity. Qed.

(** C5, amended: for a transfer between accounts of different currencies
    with the custom-rate option on and a converted amount above zero, the
    rate previewed is the converted amount divided by the amount, rounded
    to four decimals as [Math.round(q * 10000) / 10000] in binary64, where
    [Math.round] of a finite number is an integer nearest to it; the
    converted amount is shown as entered, and the exchange-rate table plays
    no part: any other table gives the same preview. *)
Theorem custom_rate_takes_priority accounts rates rates' td fromA toA c :
  findAccount accounts (from_account_id td) = Some fromA →
  findAccount accounts (to_account_id td) = Some toA →
  ltb zero (amount td) = true →
  acc_currency fromA ≠ acc_currency toA →
  converted_amount td = Some c →
  ltb zero c = true →
  ∃ p, getConversionPreview accounts rates true td = Some p
       ∧ (let scaled := mul (div c (amount td)) (of_Z 10000) in
          exchangeRate p = div (Math_round scaled) (of_Z 10000)
          ∧ (is_finite scaled = true →
             nearest_integer scaled (Math_round scaled)))
       ∧ convertedAmount p = c
       ∧ isCustomRate p = true
       ∧ getConversionPreview accounts rates' true td = Some p.
Proof.
  intros Hfrom Hto Hpos Hcur Hconv Hc.
  rewrite !(cross_currency_preview_b64 _ _ true _ _ _ Hfrom Hto Hpos Hcur).
  assert (customAmount true (converted_amount td) = Some c) as ->
    by by apply custom_amount_Some.
  eexists. split; [reflexivity|]. cbn.
  split_and!; try reflexivity.
  apply Math_round_nearest, mul_valid; [apply div_valid|done].
Qed.

Lemma custom_rate_takes_priority_witness :
  ∃ p, getConversionPreview Sample64.my_accounts Sample64.usd_eur_rates true
         Sample64.usd_to_eur_custom = Some p
       ∧ exchangeRate p = decimal 9062 10000
       ∧ convertedAmount p = decimal 29 100
       ∧ getConversionPreview Sample64.my_accounts ∅ true
           Sample64.usd_to_eur_custom = Some p.
Proof.
  destruct (custom_rate_takes_priority Sample64.my_accounts
              Sample64.usd_eur_rates ∅ Sample64.usd_to_eur_custom
              Sample64.checking_usd Sample64.travel_eur (decimal 29 100))
    as (p & Hp & (Hrate & _) & Hconv & _ & Hp');
    [reflexivity | reflexivity | reflexivity | discriminate | reflexivity
    | reflexivity |].
  exists p. split; [exact Hp|]. rewrite Hrate, Hconv.
  split_and!; [vm_compute; reflexivity | reflexivity | exact Hp'].
Defined.


End ConversionPreview64.

(** ** Submitting a transfer *)

Section SubmitTransfer.
Import TransferPage TransferOperation.

(** C7: a transfer whose source and destination are the same account is
    refused.  On the page, [handleSubmit] raises the alert and returns: the
    preview is not opened, the form is left as it was and nothing is handed
    to the transfer endpoint; if the confirmation dialog was closed, its
    confirm button stays unavailable.  The endpoint itself answers such a
    request with [ValidationError] and leaves the stored rows as they were. *)
Theorem same_account_transfer_rejected
    (convert : Currency → Currency → Qc → option Qc → Qc * Qc)
    (user : Z) (today : Date) (st : Store)
    (accs : list Account) (rates : gmap string Qc) (s : PageState) :
  from_account_id (transferData s) = to_account_id (transferData s) →
  alerts (handleSubmit s) = alerts s ++ [same_account_message]
  ∧ posted (handleSubmit s) = posted s
  ∧ showPreview (handleSubmit s) = showPreview s
  ∧ transferData (handleSubmit s) = transferData s
  ∧ (showPreview s = false →
     confirmButtonRendered accs rates (handleSubmit s) = false)
  ∧ createTransfer convert user today (transferData s) st
    = (inl ValidationError, st).
Proof.
  intros Hsame. unfold handleSubmit, confirmButtonRendered.
  destruct (decide (from_account_id (transferData s)
                    = to_account_id (transferData s))) as [_|Hne];
    [|by destruct Hne].
  cbn. split_and!; try reflexivity.
  - by intros ->.
  - unfold createTransfer. case_decide; [done|]. by case_decide.
Qed.

Lemma same_account_transfer_rejected_witness :
  let s := {| transferData := Sample.to_itself; useCustomRate := false;
              showPreview := false; alerts := []; posted := [] |} in
  let st := {| accounts := Sample.my_accounts; rows := [] |} in
  alerts (handleSubmit s) = [same_account_message]
  ∧ posted (handleSubmit s) = []
  ∧ showPreview (handleSubmit s) = false
  ∧ rows (createTransfer (fun _ _ a _ => (a, 1)) 7 Sample2.today
            Sample.to_itself st).2 = [].
Proof.
  intros s st.
  destruct (same_account_transfer_rejected (fun _ _ a _ => (a, 1)) 7
              Sample2.today st Sample.my_accounts ∅ s eq_refl)
    as (Halerts & Hposted & Hpreview & _ & _ & Hendpoint).
  change (transferData s) with Sample.to_itself in Hendpoint.
  rewrite Halerts, Hposted, Hpreview, Hendpoint. by split_and!.
Defined.

End SubmitTransfer.

(** ** Currency totals and the dominant currency *)

Section DominantCurrency.
Import JS Totals Aggregate.

(** C3: for accounts of 100 euro, 50 euro and 30 dollars, whatever their
    other fields, the total balance reported is 150 euro: the sum over the
    euro accounts alone, which is not the sum over all three accounts. *)
Theorem mixed_total_is_150_EUR
    (id1 id2 id3 owner1 owner2 owner3 : Z) (name1 name2 name3 : string)
    (type1 type2 type3 : AccountType) :
  let accounts :=
    [mkAccount id1 name1 type1 (Qc_of_Z 100) EUR owner1;
     mkAccount id2 name2 type2 (Qc_of_Z 50) EUR owner2;
     mkAccount id3 name3 type3 (Qc_of_Z 30) USD owner3] in
  bal_currency (calculateTotalBalance accounts) = EUR
  ∧ bal_amount (calculateTotalBalance accounts) = Qc_of_Z 150
  ∧ bal_amount (calculateTotalBalance accounts) = total_in EUR accounts
  ∧ bal_amount (calculateTotalBalance accounts) ≠ sumInitialBalances accounts.
Proof.
  intros accounts. split_and!.
  - reflexivity.
  - apply Qc_is_canon. reflexivity.
  - apply Qc_is_canon. reflexivity.
  - intros Heq. apply (f_equal this) in Heq. vm_compute in Heq. discriminate.
Qed.

End DominantCurrency.

(** ** The dominant currency on binary64 numbers *)

Section DominantCurrency64.
Import Number Binary64.

Lemma dominant_fold64 (seed : Balance) (entries : Totals) :
  let r := foldl (fun max entry =>
                    if ltb (bal_amount max) entry.2
                    then {| bal_amount := entry.2; bal_currency := entry.1 |}
                    else max) seed entries in
  (∀ e, e ∈ entries → ltb (bal_amount r) e.2 = false)
  ∧ (r = seed
     ∨ ((bal_currency r, bal_amount r) ∈ entries
        ∧ ltb (bal_amount seed) (bal_amount r) = true)).
Proof.
  revert seed. induction entries as [|[c v] entries IH]; intros seed; cbn.
  - split; [|by left]. by intros e ?%not_elem_of_nil.
  - destruct (ltb (bal_amount seed) v) eqn:Hlt.
    + destruct (IH {| bal_amount := v; bal_currency := c |}) as (Hall & Hwho).
      cbn in Hwho. split.
      * intros e [->|He]%elem_of_cons; [|by apply Hall]. cbn.
        destruct Hwho as [->|[_ Hbeats]]; [apply ltb_irrefl|by apply ltb_asym].
      * right. destruct Hwho as [->|[Hin Hbeats]]; cbn.
        -- split; [apply list_elem_of_here|done].
        -- split; [by apply list_elem_of_further|by eapply ltb_trans].
    + destruct (IH seed) as (Hall & Hwho). split.
      * intros e [->|He]%elem_of_cons; [|by apply Hall]. cbn.
        destruct Hwho as [->|[_ Hbeats]]; [done|].
        by eapply ltb_false_trans.
      * destruct Hwho as [Heq|[Hin Hbeats]]; [by left|right].
        split; [by apply list_elem_of_further|done].
Qed.

Lemma totals_set_elem_of o k x c v : (c, v) ∈ set o k x → (c, v) ∈ o ∨ c = k.
Proof.
  induction o as [|[k' v'] o IH]; cbn.
  - intros [= -> ->]%list_elem_of_singleton. by right.
  - destruct (decide (k' = k)) as [->|Hk].
    + intros [[= -> ->]|Hin]%elem_of_cons; [by right|].
      left. by apply list_elem_of_further.
    + intros [[= -> ->]|Hin]%elem_of_cons; [left; apply list_elem_of_here|].
      destruct (IH Hin) as [?|?]; [left|by right].
      by apply list_elem_of_further.
Qed.

Lemma totals_set_self o k x : (k, x) ∈ set o k x.
Proof.
  induction o as [|[k' v'] o IH]; cbn; [apply list_elem_of_here|].
  destruct (decide (k' = k)) as [->|Hk]; [apply list_elem_of_here|].
  by apply list_elem_of_further.
Qed.

Lemma totals_set_keeps o k x c v : (c, v) ∈ o → ∃ v', (c, v') ∈ set o k x.
Proof.
  induction o as [|[k' v'] o IH]; cbn; [by intros ?%not_elem_of_nil|].
  intros [[= -> ->]|Hin]%elem_of_cons.
  - destruct (decide (k' = k)) as [->|Hk];
      eexists; apply list_elem_of_here.
  - destruct (decide (k' = k)) as [->|Hk].
    + exists v. by apply list_elem_of_further.
    + destruct (IH Hin) as [v'' Hv]. exists v''.
      by apply list_elem_of_further.
Qed.

Lemma totals_held accounts : ∀ acc c v,
  (c, v) ∈ foldl add_account acc accounts →
  (∃ v', (c, v') ∈ acc) ∨ ∃ a, a ∈ accounts ∧ acc_currency a = c.
Proof.
  induction accounts as [|a accounts IH]; intros acc c v; cbn.
  - intros Hin. left. by exists v.
  - intros Hin. destruct (IH _ _ _ Hin) as [[v' Hv']|(b & Hb & Hc)].
    + apply totals_set_elem_of in Hv' as [Hv'| ->].
      * left. by exists v'.
      * right. exists a. split; [apply list_elem_of_here|done].
    + right. exists b. split; [by apply list_elem_of_further|done].
Qed.

Lemma held_totals accounts : ∀ acc a,
  a ∈ accounts → ∃ v, (acc_currency a, v) ∈ foldl add_account acc accounts.
Proof.
  assert (Hkeep : ∀ accounts acc c v,
            (c, v) ∈ acc → ∃ v', (c, v') ∈ foldl add_account acc accounts).
  { clear. induction accounts as [|b accounts IH]; intros acc c v Hin; cbn.
    - by exists v.
    - destruct (totals_set_keeps acc (acc_currency b)
                  (add (or_num (get acc (acc_currency b)) zero)
                       (initial_balance b)) c v Hin) as [v' Hv'].
      by apply (IH _ _ v'). }
  induction accounts as [|b accounts IH]; intros acc a; cbn.
  - by intros ?%not_elem_of_nil.
  - intros [->|Hin]%elem_of_cons; [|by apply IH].
    eapply Hkeep. apply totals_set_self.
Qed.

Lemma mixed_total64 accounts first rest :
  accounts = first :: rest →
  ¬ Forall (fun a => acc_currency a = acc_currency first) accounts →
  calculateTotalBalance accounts = dominantCurrency (currencyTotals accounts).
Proof.
  intros -> Hmixed. unfold calculateTotalBalance.
  destruct (forallb _ _) eqn:Hall; [|done].
  destruct Hmixed. apply Forall_forall. intros a Ha.
  rewrite forallb_forall in Hall. specialize (Hall a).
  rewrite <- list_elem_of_In in Hall. specialize (Hall Ha).
  by apply bool_decide_eq_true in Hall.
Qed.

(** X2: With accounts in several currencies, the total reported is the
    largest of the aggregates the reduction computed: none of them is
    greater than the amount reported, each belongs to a currency some
    account is held in and each such currency has one; and when one of
    them is above zero, the total reported is one of them, above zero
    itself.  The aggregates are the binary64 sums the code accumulates, in
    the order of the accounts. *)
Theorem dominant_currency_is_largest accounts first rest :
  accounts = first :: rest →
  ¬ Forall (fun a => acc_currency a = acc_currency first) accounts →
  let totals := currencyTotals accounts in
  let b := calculateTotalBalance accounts in
  (∀ c v, (c, v) ∈ totals →
          ltb (bal_amount b) v = false
          ∧ ∃ a, a ∈ accounts ∧ acc_currency a = c)
  ∧ (∀ a, a ∈ accounts → ∃ v, (acc_currency a, v) ∈ totals)
  ∧ (∀ c v, (c, v) ∈ totals → ltb zero v = true →
            (bal_currency b, bal_amount b) ∈ totals
            ∧ ltb zero (bal_amount b) = true).
Proof.
  intros Hacc Hmixed totals b. subst totals b.
  rewrite (mixed_total64 _ _ _ Hacc Hmixed). clear Hacc Hmixed first rest.
  unfold dominantCurrency.
  destruct (dominant_fold64 {| bal_amount := zero; bal_currency := USD |}
              (currencyTotals accounts)) as (Hall & Hwho).
  set (r := foldl _ _ _) in *. clearbody r. split_and!.
  - intros c v Hin. split; [apply (Hall _ Hin)|].
    destruct (totals_held accounts [] c v Hin) as [[v' Hv']|?]; [|done].
    by apply not_elem_of_nil in Hv'.
  - intros a Ha. by apply held_totals.
  - intros c v Hin Hpos. destruct Hwho as [->|[Hr Hbeats]]; [|done].
    specialize (Hall _ Hin). cbn [bal_amount snd] in Hall.
    by rewrite Hpos in Hall.
Qed.

(** X3: With accounts in several currencies, the total reported is the
    starting value of the reduction, zero US dollars, exactly when none of
    the aggregates the code accumulated is above zero. *)
Theorem dominant_currency_fallback accounts first rest :
  accounts = first :: rest →
  ¬ Forall (fun a => acc_currency a = acc_currency first) accounts →
  calculateTotalBalance accounts = {| bal_amount := zero; bal_currency := USD |}
  ↔ ∀ c v, (c, v) ∈ currencyTotals accounts → ltb zero v = false.
Proof.
  intros Hacc Hmixed.
  rewrite (mixed_total64 _ _ _ Hacc Hmixed). clear Hacc Hmixed first rest.
  unfold dominantCurrency.
  destruct (dominant_fold64 {| bal_amount := zero; bal_currency := USD |}
              (currencyTotals accounts)) as (Hall & Hwho).
  set (r := foldl _ _ _) in *. clearbody r. split.
  - intros -> c v Hin. apply (Hall _ Hin).
  - intros Hnone. destruct Hwho as [->|[Hr Hbeats]]; [done|].
    cbn [bal_amount] in Hbeats. by rewrite (Hnone _ _ Hr) in Hbeats.
Qed.


(** Dollars 0.3 against euros 0.1 and 0.2: the euro aggregate is the
    binary64 sum 0.1 + 0.2, which is above 0.3, and the euro is reported. *)
Lemma dominant_currency_follows_the_binary64_sum :
  let b := calculateTotalBalance
             [Sample64.account 1 USD 3; Sample64.account 2 EUR 1;
              Sample64.account 3 EUR 2] in
  bal_currency b = EUR
  ∧ bal_amount b = add (decimal 1 10) (decimal 2 10)
  ∧ ltb (decimal 3 10) (bal_amount b) = true.
Proof. by vm_compute. Qed.

(** The accounts of 100 euro, 50 euro and 30 dollars: 150 euro on binary64
    numbers as well, every sum being exact. *)
Lemma mixed_total_is_150_EUR_on_binary64 :
  calculateTotalBalance
    [mkAccount 1 "A" CHECKING (of_Z 100) EUR 7;
     mkAccount 2 "B" SAVINGS (of_Z 50) EUR 7;
     mkAccount 3 "C" CASH (of_Z 30) USD 7]
  = {| bal_amount := of_Z 150; bal_currency := EUR |}.
Proof. by vm_compute. Qed.

Lemma mixed_euro_cents_and_card :
  ¬ Forall (fun a => acc_currency a = EUR) Sample64.euro_cents_and_card.
Proof.
  intros H. do 4 apply Forall_cons in H as [_ H].
  apply Forall_cons in H as [H _]. discriminate.
Qed.

(** Euro accounts of 0.1, 0.2, -0.2 and -0.1 add up, in binary64 and in
    this order, to a little more than zero: the euro is reported. *)
Lemma dominant_currency_is_largest_witness :
  let b := calculateTotalBalance Sample64.euro_cents_and_card in
  bal_currency b = EUR
  ∧ (bal_currency b, bal_amount b) ∈ currencyTotals Sample64.euro_cents_and_card
  ∧ ltb zero (bal_amount b) = true.
Proof.
  intros b. split; [reflexivity|].
  apply (proj2 (proj2 (dominant_currency_is_largest
                         Sample64.euro_cents_and_card _ _ eq_refl
                         mixed_euro_cents_and_card))
           EUR (bal_amount b)).
  - vm_compute. apply list_elem_of_here.
  - reflexivity.
Defined.

Lemma dominant_currency_fallback_witness :
  calculateTotalBalance Sample64.empty_and_card
  = {| bal_amount := zero; bal_currency := USD |}.
Proof.
  apply (dominant_currency_fallback Sample64.empty_and_card _ _ eq_refl).
  - intros H. apply Forall_cons in H as [_ H].
    apply Forall_cons in H as [H _]. discriminate.
  - intros c v Hin. vm_compute in Hin.
    apply elem_of_cons in Hin as [[= -> ->]|Hin]; [reflexivity|].
    apply list_elem_of_singleton in Hin as [= -> ->]. reflexivity.
Defined.

End DominantCurrency64.

(** ** Monthly income and expenses *)

Section MonthlyTotals.
Import Totals Aggregate.

Lemma sumAmounts_from (v : Qc) (l : list Transaction) :
  foldl (fun sum t => sum + tx_amount t) v l = v + sumAmounts l.
Proof.
  unfold sumAmounts. revert v. induction l as [|t l IH]; intros v; cbn.
  - ring.
  - rewrite (IH (v + tx_amount t)), (IH (0 + tx_amount t)). ring.
Qed.

(** The Dashboard filters in two passes, the Analytics page in one: the
    totals are the same. *)
Lemma monthlyIncome_totalIncome now accounts transactions :
  Dashboard.monthlyIncome now accounts transactions
  = AnalyticsPage.totalIncome now accounts transactions.
Proof.
  unfold Dashboard.monthlyIncome, AnalyticsPage.totalIncome. cbv zeta.
  rewrite list_filter_filter. f_equal. apply list_filter_iff. intros t. tauto.
Qed.

Lemma monthlyExpenses_totalExpenses now accounts transactions :
  Dashboard.monthlyExpenses now accounts transactions
  = AnalyticsPage.totalExpenses now accounts transactions.
Proof.
  unfold Dashboard.monthlyExpenses, AnalyticsPage.totalExpenses. cbv zeta.
  rewrite list_filter_filter. f_equal. apply list_filter_iff. intros t. tauto.
Qed.


(** C4, at an empty euro account and a sterling card at -20, with a salary
    of 100 euro and groceries of 30 euro this month: the euro has the
    largest aggregate balance, yet the total reported is zero US dollars, a
    currency the user does not hold, and the headline income and expenses
    are both 0 where the euro income of the month is 100 and the euro
    expenses are 30. *)
Theorem income_lost_when_no_aggregate_is_positive :
  let accounts := [Sample2.eur_empty; Sample2.gbp_overdrawn] in
  let transactions := [Sample2.eur_salary; Sample2.eur_groceries] in
  total_in EUR accounts = 0
  ∧ total_in GBP accounts = Qc_of_Z (-20)
  ∧ ¬ held USD accounts
  ∧ bal_currency (calculateTotalBalance accounts) = USD
  ∧ bal_amount (calculateTotalBalance accounts) = 0
  ∧ Dashboard.monthlyIncome Sample2.today accounts transactions = 0
  ∧ AnalyticsPage.totalIncome Sample2.today accounts transactions = 0
  ∧ Dashboard.monthlyExpenses Sample2.today accounts transactions = 0
  ∧ AnalyticsPage.totalExpenses Sample2.today accounts transactions = 0
  ∧ sumAmounts
      (filter (fun t => tx_type t = INCOME ∧ tx_currency t = EUR)
              (monthlyTransactions Sample2.today transactions))
    = Qc_of_Z 100
  ∧ sumAmounts
      (filter (fun t => tx_type t = EXPENSE ∧ tx_currency t = EUR)
              (monthlyTransactions Sample2.today transactions))
    = Qc_of_Z 30.
Proof.
  intros accounts transactions. split_and!;
    try (apply Qc_is_canon; reflexivity); try reflexivity.
  intros (a & Ha & Hcur). subst accounts.
  apply elem_of_cons in Ha as [->|Ha]; [discriminate|].
  apply list_elem_of_singleton in Ha as ->. discriminate.
Qed.

End MonthlyTotals.

(** ** Reported balances *)

Section ReportedBalance.
Import Totals Aggregate SpecBalance.

(** C2 as stated does not hold: for a dollar account opened with 100 that
    received a refund of 50 dollars, the Account Breakdown row shows 100,
    not the 150 of the derived balance. *)
Lemma breakdown_ignores_transactions :
  ¬ (∀ accounts transactions account,
       account ∈ accounts →
       (acc_name account,
        {| bal_amount := derivedBalance account transactions;
           bal_currency := acc_currency account |})
       ∈ accountBreakdown accounts).
Proof.
  intros Hclaim.
  specialize (Hclaim [Sample.checking_usd] [Sample2.usd_refund]
                Sample.checking_usd (list_elem_of_here _ _)).
  apply list_elem_of_singleton in Hclaim.
  injection Hclaim as Hamount. vm_compute in Hamount. discriminate.
Qed.

(** C2, amended: the balance the Analytics page reports for an account,
    its row of the Account Breakdown, is the [initial_balance] the account
    was delivered with, in the account's currency, whether or not the
    user's accounts share one currency; and neither the rows nor the
    headline total balance depend on the transactions the page holds: no
    transaction amount is added to a balance on the client. *)
Theorem reported_balance_is_initial_balance now accounts transactions
    transactions' i account :
  accounts !! i = Some account →
  let view := AnalyticsView.render now accounts transactions in
  AnalyticsView.breakdown view !! i
  = Some (acc_name account,
          {| bal_amount := initial_balance account;
             bal_currency := acc_currency account |})
  ∧ length (AnalyticsView.breakdown view) = length accounts
  ∧ AnalyticsView.breakdown (AnalyticsView.render now accounts transactions')
    = AnalyticsView.breakdown view
  ∧ AnalyticsView.totalBalance
      (AnalyticsView.render now accounts transactions')
    = AnalyticsView.totalBalance view.
Proof.
  intros Hi view. subst view. cbn [AnalyticsView.render
    AnalyticsView.breakdown AnalyticsView.totalBalance].
  unfold accountBreakdown. split_and!; [|by rewrite length_map|done|done].
  by rewrite list_lookup_fmap, Hi.
Qed.

(** A dollar account opened with 100 beside a euro account, and a refund
    of 50 dollars among the transactions: the row still shows 100. *)
Lemma reported_balance_is_initial_balance_witness :
  AnalyticsView.breakdown
    (AnalyticsView.render Sample2.today
       [Sample.checking_usd; Sample.travel_eur] [Sample2.usd_refund])
    !! 0%nat
  = Some ("Checking", {| bal_amount := Qc_of_Z 100; bal_currency := USD |})
  ∧ AnalyticsView.totalBalance
      (AnalyticsView.render Sample2.today
         [Sample.checking_usd; Sample.travel_eur] [])
    = AnalyticsView.totalBalance
        (AnalyticsView.render Sample2.today
           [Sample.checking_usd; Sample.travel_eur] [Sample2.usd_refund]).
Proof.
  destruct (reported_balance_is_initial_balance Sample2.today
              [Sample.checking_usd; Sample.travel_eur] [Sample2.usd_refund]
              [] 0 Sample.checking_usd eq_refl)
    as (Hrow & _ & _ & Htotal).
  by split.
Defined.

End ReportedBalance.

(** ** The login form state *)

Section LoginForm.
Import JS LoginFormStateManager.

Lemma or_str_empty (x : option string) : or_str x "" = default "" x.
Proof. destruct x as [s|]; [|done]. cbn. by case_decide. Qed.

(** Reading back what was just written holds in every state of the
    manager, with or without a [window]. *)
Lemma getUsername_setUsername v s : (getUsername (setUsername v s)).1 = v.
Proof.
  unfold getUsername, setUsername, loadFromStorage, getItem, setItem.
  destruct (initialized s), (hasWindow (env s)) eqn:Hw; cbn;
    rewrite ?Hw; cbn; try done.
  by rewrite or_str_empty, lookup_insert_eq.
Qed.

Lemma getPassword_setPassword v s : (getPassword (setPassword v s)).1 = v.
Proof.
  unfold getPassword, setPassword, loadFromStorage, getItem, setItem.
  destruct (initialized s), (hasWindow (env s)) eqn:Hw; cbn;
    rewrite ?Hw; cbn; try done.
  by rewrite or_str_empty, lookup_insert_eq.
Qed.

Lemma getters_after_clear s :
  let '(u, s1) := getUsername (clear s) in
  let '(p, s2) := getPassword s1 in
  u = "" ∧ p = "" ∧ sessionStorage (env s2) = sessionStorage (env (clear s)).
Proof.
  unfold getUsername, getPassword, clear, loadFromStorage, getItem, removeItem.
  destruct (initialized s), (hasWindow (env s)) eqn:Hw; cbn;
    rewrite ?Hw; cbn; rewrite ?Hw; cbn; try done.
  rewrite !or_str_empty.
  rewrite lookup_delete_ne by done. rewrite !lookup_delete_eq. done.
Qed.

(** What the constructor guarantees in a browser: the manager starts
    initialized, holding the stored values. *)
Lemma new_initialized e :
  hasWindow e = true →
  initialized (new e) = true
  ∧ username (new e) = default "" (sessionStorage e !! username_key)
  ∧ password (new e) = default "" (sessionStorage e !! password_key).
Proof.
  intros Hw. unfold new, loadFromStorage, getItem. cbn. rewrite Hw. cbn.
  by rewrite !or_str_empty.
Qed.

(** C10: in a browser (where [window] exists), for every string [v]:
    after [setUsername(v)], [getUsername()] returns [v] and [v] is stored
    in sessionStorage under "login_form_username"; likewise for the
    password under "login_form_password"; and after [clear()] both getters
    return the empty string and both keys are gone from sessionStorage. *)
Theorem set_get_clear (s : State) (v : string) :
  hasWindow (env s) = true →
  ((getUsername (setUsername v s)).1 = v
   ∧ sessionStorage (env (getUsername (setUsername v s)).2)
       !! "login_form_username" = Some v)
  ∧ ((getPassword (setPassword v s)).1 = v
     ∧ sessionStorage (env (getPassword (setPassword v s)).2)
         !! "login_form_password" = Some v)
  ∧ (let '(u, s1) := getUsername (clear s) in
     let '(p, s2) := getPassword s1 in
     u = "" ∧ p = ""
     ∧ sessionStorage (env s2) !! "login_form_username" = None
     ∧ sessionStorage (env s2) !! "login_form_password" = None).
Proof.
  intros Hw. split_and!.
  - apply getUsername_setUsername.
  - unfold getUsername, setUsername, loadFromStorage, setItem.
    rewrite Hw. destruct (initialized s); cbn; apply lookup_insert_eq.
  - apply getPassword_setPassword.
  - unfold getPassword, setPassword, loadFromStorage, setItem.
    rewrite Hw. destruct (initialized s); cbn; apply lookup_insert_eq.
  - pose proof (getters_after_clear s) as Hclear.
    destruct (getUsername (clear s)) as [u s1].
    destruct (getPassword s1) as [p s2].
    destruct Hclear as (-> & -> & ->). split_and!; [done..| |].
    + unfold clear, removeItem. cbn. rewrite Hw. cbn.
      rewrite lookup_delete_ne by done. apply lookup_delete_eq.
    + unfold clear, removeItem. cbn. rewrite Hw. cbn.
      apply lookup_delete_eq.
Qed.

Lemma set_get_clear_witness :
  let s := new {| hasWindow := true;
                  sessionStorage := {[ "login_form_username" := "old" ]} |} in
  (getUsername (setUsername "alice" s)).1 = "alice"
  ∧ sessionStorage (env (setUsername "alice" s)) !! "login_form_username"
    = Some "alice"
  ∧ (getUsername (clear (setUsername "alice" s))).1 = "".
Proof.
  intros s.
  destruct (set_get_clear s "alice" eq_refl) as ((Hget & _) & _ & _).
  split_and!; [exact Hget|reflexivity|reflexivity].
Defined.

End LoginForm.

(** ** Calendar arithmetic *)

Section CalendarFacts.
Import Calendar.
Local Open Scope Z_scope.

Lemma div_step y k :
  0 < k → (y - 1) / k = y / k - (if y mod k =? 0 then 1 else 0).
Proof.
  intros Hk. pose proof (Z.div_mod y k ltac:(lia)) as Hy.
  pose proof (Z.mod_pos_bound y k Hk) as Hr.
  destruct (Z.eqb_spec (y mod k) 0) as [H0|H0]; symmetry.
  - apply Z.div_unique with (r := k - 1); [lia|].
    rewrite Z.mul_sub_distr_l. lia.
  - apply Z.div_unique with (r := y mod k - 1); [lia|].
    rewrite Z.sub_0_r. lia.
Qed.

Lemma mod_factor y a b : 0 < a → 0 < b → y mod (a * b) = 0 → y mod a = 0.
Proof.
  intros Ha Hb Hy. apply Z.mod_divide in Hy; [|lia].
  apply Z.mod_divide; [lia|]. destruct Hy as [q ->]. exists (q * b). ring.
Qed.

Lemma days_before_year_succ y :
  days_before_year (y + 1)
  = days_before_year y + (if is_leap y then 366 else 365).
Proof.
  unfold days_before_year, is_leap.
  replace (y + 1 - 1) with y by lia.
  rewrite (div_step y 4), (div_step y 100), (div_step y 400) by lia.
  pose proof (mod_factor y 4 25 ltac:(lia) ltac:(lia)) as Ha.
  pose proof (mod_factor y 100 4 ltac:(lia) ltac:(lia)) as Hb.
  change (4 * 25) with 100 in Ha. change (100 * 4) with 400 in Hb.
  destruct (Z.eqb_spec (y mod 4) 0), (Z.eqb_spec (y mod 100) 0),
    (Z.eqb_spec (y mod 400) 0); cbn [negb andb orb]; lia.
Qed.

Ltac each_month m :=
  let H := fresh in
  assert (H : m = 1 ∨ m = 2 ∨ m = 3 ∨ m = 4 ∨ m = 5 ∨ m = 6 ∨ m = 7
              ∨ m = 8 ∨ m = 9 ∨ m = 10 ∨ m = 11 ∨ m = 12) by lia;
  repeat (destruct H as [->|H]); [..|subst m].

Lemma days_in_month_bounds y m : 28 <= days_in_month y m <= 31.
Proof.
  unfold days_in_month.
  repeat (match goal with |- context [if ?b then _ else _] => destruct b end);
    lia.
Qed.

Lemma days_before_month_succ y m :
  1 <= m < 12 →
  days_before_month y (m + 1) = days_before_month y m + days_in_month y m.
Proof.
  intros Hm. each_month m; try lia;
    unfold days_before_month, days_in_month; destruct (is_leap y);
    reflexivity.
Qed.

Lemma year_length y :
  days_before_month y 12 + days_in_month y 12
  = if is_leap y then 366 else 365.
Proof.
  unfold days_before_month, days_in_month. destruct (is_leap y); reflexivity.
Qed.

Lemma next_day_valid d : valid d → valid (next_day d).
Proof.
  unfold valid, next_day. intros [Hm Hd].
  destruct (Z.ltb_spec (day d) (days_in_month (year d) (month d))); cbn;
    [lia|].
  destruct (Z.ltb_spec (month d) 12); cbn.
  - pose proof (days_in_month_bounds (year d) (month d + 1)). lia.
  - pose proof (days_in_month_bounds (year d + 1) 1). lia.
Qed.

(** The day after a date has the next day number. *)
Lemma ordinal_next_day d : valid d → ordinal (next_day d) = ordinal d + 1.
Proof.
  unfold valid, next_day, ordinal. intros [Hm Hd].
  destruct (Z.ltb_spec (day d) (days_in_month (year d) (month d))); cbn;
    [lia|].
  destruct (Z.ltb_spec (month d) 12); cbn.
  - rewrite days_before_month_succ by lia. lia.
  - assert (month d = 12) as Hdec by lia. rewrite Hdec in *.
    rewrite days_before_year_succ. pose proof (year_length (year d)).
    change (days_before_month (year d + 1) 1) with 0. lia.
Qed.

Lemma add_days_spec n d :
  valid d →
  valid (add_days n d) ∧ ordinal (add_days n d) = ordinal d + Z.of_nat n.
Proof.
  revert d. induction n as [|n IH]; intros d Hd; cbn [add_days].
  - split; [done|lia].
  - destruct (IH (next_day d) (next_day_valid d Hd)) as [Hv Ho].
    split; [done|]. rewrite Ho, ordinal_next_day by done. lia.
Qed.

(** [n] months on: the month moves by exactly [n] positions and the day of
    the month is kept unless the target month is too short for it. *)
Lemma add_months_spec n d :
  valid d →
  valid (add_months n d)
  ∧ month_index (add_months n d) = month_index d + n
  ∧ day (add_months n d)
    = Z.min (day d)
        (days_in_month (year (add_months n d)) (month (add_months n d))).
Proof.
  unfold valid, add_months, month_index. intros [Hm Hd]. cbn.
  set (idx := year d * 12 + (month d - 1) + n).
  pose proof (Z.div_mod idx 12 ltac:(lia)) as Hidx.
  pose proof (Z.mod_pos_bound idx 12 ltac:(lia)) as Hr.
  pose proof (days_in_month_bounds (idx / 12) (idx mod 12 + 1)).
  split_and!; lia.
Qed.

Lemma add_year_spec d :
  valid d →
  year (add_months 12 d) = year d + 1 ∧ month (add_months 12 d) = month d.
Proof.
  unfold valid, add_months. intros [Hm Hd]. cbn.
  set (idx := year d * 12 + (month d - 1) + 12).
  assert (idx = 12 * (year d + 1) + (month d - 1)) as Hidx by (subst idx; lia).
  assert (idx / 12 = year d + 1) as Hq
    by (symmetry; apply Z.div_unique with (r := month d - 1); lia).
  assert (idx mod 12 = month d - 1) as Hr
    by (symmetry; apply Z.mod_unique with (q := year d + 1); lia).
  rewrite Hq, Hr. lia.
Qed.

End CalendarFacts.

(** ** Firing a recurring template *)

Section Recurring.
Import Calendar RecurringEngine Period.
Local Open Scope Z_scope.

Lemma advance_spec f d :
  valid d → valid (advance f d) ∧ one_period_later f d (advance f d).
Proof.
  intros Hd. destruct f; cbn [advance one_period_later].
  - apply (add_days_spec 1 d Hd).
  - apply (add_days_spec 7 d Hd).
  - apply (add_months_spec 1 d Hd).
  - apply (add_months_spec 3 d Hd).
  - destruct (add_months_spec 12 d Hd) as (Hv & _ & Hday).
    destruct (add_year_spec d Hd) as [Hy Hm]. by split_and!.
Qed.

(** C8: firing an active template whose due date is a calendar date
    produces one transaction that refers back to the template and moves
    [next_due_date] on by exactly one period of its frequency, to a calendar
    date again; and a MONTHLY template created with start date 2024-01-31
    is due on 2024-02-29 after its first firing. *)
Theorem firing_advances_one_period (new_id : Z) (on : Date)
    (t : RecurringTransaction) :
  is_active t = true →
  valid (next_due_date t) →
  (∃ tx t',
     fire new_id on t = Some (tx, t')
     ∧ tx_recurring_transaction_id tx = Some (rt_id t)
     ∧ frequency t' = frequency t
     ∧ valid (next_due_date t')
     ∧ one_period_later (frequency t) (next_due_date t) (next_due_date t'))
  ∧ (∀ id owner today name amount type currency stop account,
       next_due_date
       <$> (snd <$> fire new_id on
                      (create id owner today name amount type currency MONTHLY
                         (mkDate 2024 1 31) stop account))
       = Some (mkDate 2024 2 29)).
Proof.
  intros Hactive Hvalid. split.
  - unfold fire. rewrite Hactive.
    destruct (advance_spec (frequency t) _ Hvalid) as [Hv Hp].
    eexists _, _. split; [reflexivity|]. cbn. by split_and!.
  - intros. reflexivity.
Qed.

Lemma firing_advances_one_period_witness :
  let t := create 1 7 (mkDate 2024 1 15) "Rent" (Qc_of_Z 900) EXPENSE EUR
             MONTHLY (mkDate 2024 1 31) None 1 in
  ∃ tx t',
    fire 10 (mkDate 2024 1 31) t = Some (tx, t')
    ∧ next_due_date t' = mkDate 2024 2 29
    ∧ month_index (next_due_date t') = month_index (next_due_date t) + 1.
Proof.
  intros t.
  destruct (firing_advances_one_period 10 (mkDate 2024 1 31) t eq_refl)
    as [(tx & t' & Hfire & _ & _ & _ & Hmonth & _) _].
  - unfold valid. cbn. lia.
  - exists tx, t'. split_and!; [exact Hfire| |exact Hmonth].
    injection Hfire as _ <-. reflexivity.
Defined.

End Recurring.

(** ** More on totals: the two pages and the service helpers *)

Section MoreTotals.
Import JS Totals Aggregate.

Lemma foldl_add_from {A} (f : A → Qc) (v : Qc) (l : list A) :
  foldl (fun sum a => sum + f a) v l
  = v + foldl (fun sum a => sum + f a) 0 l.
Proof.
  revert v. induction l as [|a l IH]; intros v; cbn.
  - ring.
  - rewrite (IH (v + f a)), (IH (0 + f a)). ring.
Qed.

Lemma foldl_add_cons {A} (f : A → Qc) (a : A) (l : list A) :
  foldl (fun sum a => sum + f a) 0 (a :: l)
  = f a + foldl (fun sum a => sum + f a) 0 l.
Proof. cbn. rewrite foldl_add_from. ring. Qed.

Lemma foldl_add_nonneg {A} (f : A → Qc) (l : list A) :
  (∀ a, 0 ≤ f a) → 0 ≤ foldl (fun sum a => sum + f a) 0 l.
Proof.
  intros Hf. induction l as [|a l IH]; [done|].
  rewrite foldl_add_cons.
  replace (Q2Qc 0) with (0 + 0) by ring. by apply Qcplus_le_compat.
Qed.

(** X5: The Dashboard and the Analytics page compute the same monthly income
    and the same monthly expenses from the same accounts and
    transactions. *)
Theorem dashboard_and_analytics_agree now accounts transactions :
  Dashboard.monthlyIncome now accounts transactions
  = AnalyticsPage.totalIncome now accounts transactions
  ∧ Dashboard.monthlyExpenses now accounts transactions
    = AnalyticsPage.totalExpenses now accounts transactions.
Proof.
  split; [apply monthlyIncome_totalIncome|apply monthlyExpenses_totalExpenses].
Qed.

(** X8: The service's monthly expenses are a sum of absolute values: never
    negative, whatever signs the stored amounts have. *)
Theorem getMonthlyExpenses_nonneg now transactions :
  0 ≤ MonthlyExpenses.getMonthlyExpenses now transactions.
Proof.
  unfold MonthlyExpenses.getMonthlyExpenses.
  apply (foldl_add_nonneg (fun t => Qcabs.Qcabs (tx_amount t))).
  intros t. apply Qcabs.Qcabs_nonneg.
Qed.


End MoreTotals.

Section MoreTotalsWitnesses.
Import Totals Aggregate.



End MoreTotalsWitnesses.

(** ** The transfer form *)

Section TransferFormFacts.
Import JS TransferPage TransferForm.

Lemma findAccount_Some accounts id a :
  findAccount accounts id = Some a → acc_id a = id ∧ a ∈ accounts.
Proof.
  unfold findAccount. intros [Hin Hid]%find_some.
  split; [by apply bool_decide_eq_true in Hid|by apply list_elem_of_In].
Qed.

(** X13: The preview is absent exactly when the source account or the
    destination account is not in the list, or the amount is not
    positive. *)
Theorem preview_absent_iff accounts rates ucr td :
  getConversionPreview accounts rates ucr td = None
  ↔ findAccount accounts (from_account_id td) = None
    ∨ findAccount accounts (to_account_id td) = None
    ∨ amount td ≤ 0.
Proof.
  unfold getConversionPreview.
  destruct (findAccount accounts (from_account_id td)) as [a|];
    [|by split; [left|]].
  destruct (findAccount accounts (to_account_id td)) as [b|];
    [|by split; [right; left|]].
  destruct (decide (amount td ≤ 0)) as [Hle|Hpos];
    [by split; [right; right|]|].
  split; [|by intros [|[|]]].
  destruct (decide (acc_currency a = acc_currency b)); [done|].
  by destruct (customAmount ucr (converted_amount td)).
Qed.

Lemma preview_Some_inv accounts rates ucr td p :
  getConversionPreview accounts rates ucr td = Some p →
  originalAmount p = amount td
  ∧ 0 < amount td
  ∧ (∃ a b, findAccount accounts (from_account_id td) = Some a
            ∧ findAccount accounts (to_account_id td) = Some b
            ∧ (sameCurrency p = true ↔ acc_currency a = acc_currency b))
  ∧ (isCustomRate p = true →
     ucr = true ∧ sameCurrency p = false
     ∧ converted_amount td = Some (convertedAmount p)
     ∧ 0 < convertedAmount p).
Proof.
  unfold getConversionPreview.
  destruct (findAccount accounts (from_account_id td)) as [a|]; [|done].
  destruct (findAccount accounts (to_account_id td)) as [b|]; [|done].
  destruct (decide (amount td ≤ 0)) as [Hle|Hpos]; [done|].
  apply Qcnot_le_lt in Hpos.
  destruct (decide (acc_currency a = acc_currency b)) as [Hcur|Hcur].
  - intros [= <-]. cbn. split_and!; [done..| |done].
    by exists a, b.
  - destruct (customAmount ucr (converted_amount td)) as [c|] eqn:Hcustom.
    + apply customAmount_Some in Hcustom as (-> & Hconv & Hc).
      intros [= <-]. cbn. split_and!; [done..| |done].
      exists a, b. by split_and!.
    + intros [= <-]. cbn. split_and!; [done..| |done].
      exists a, b. by split_and!.
Qed.

(** X14: A preview that is there repeats the amount entered, and its flags tell
    the branch taken: [sameCurrency] holds exactly when the two accounts
    share their currency, and [isCustomRate] only when the custom-rate
    option is on, the currencies differ and the converted amount shown is
    the positive one entered. *)
Theorem preview_flags accounts rates ucr td p :
  getConversionPreview accounts rates ucr td = Some p →
  originalAmount p = amount td
  ∧ 0 < amount td
  ∧ (∃ a b, findAccount accounts (from_account_id td) = Some a
            ∧ findAccount accounts (to_account_id td) = Some b
            ∧ (sameCurrency p = true ↔ acc_currency a = acc_currency b))
  ∧ (isCustomRate p = true →
     ucr = true ∧ sameCurrency p = false
     ∧ converted_amount td = Some (convertedAmount p)
     ∧ 0 < convertedAmount p).
Proof. apply preview_Some_inv. Qed.

Lemma preview_flags_witness :
  ∃ p, getConversionPreview Sample.my_accounts Sample.usd_eur_rates true
         Sample.usd_to_eur_custom = Some p
       ∧ originalAmount p = Qc_of_Z 3.
Proof.
  eexists. split; [reflexivity|].
  by destruct (preview_flags Sample.my_accounts Sample.usd_eur_rates true
                 Sample.usd_to_eur_custom _ eq_refl) as (-> & _).
Defined.

(** X15: With the submit button enabled, the custom-rate option on and two
    accounts of different currencies selected, submitting opens the
    confirmation dialog, and the preview in it is at the custom rate, with
    the converted amount the user entered. *)
Theorem enabled_submit_opens_custom_preview accounts rates s a b :
  submitDisabled s = false →
  useCustomRate s = true →
  findAccount accounts (from_account_id (transferData s)) = Some a →
  findAccount accounts (to_account_id (transferData s)) = Some b →
  acc_currency a ≠ acc_currency b →
  ∃ c p,
    converted_amount (transferData s) = Some c ∧ 0 < c
    ∧ getConversionPreview accounts rates true (transferData s) = Some p
    ∧ isCustomRate p = true ∧ convertedAmount p = c
    ∧ alerts (handleSubmit s) = alerts s
    ∧ confirmButtonRendered accounts rates (handleSubmit s) = true.
Proof.
  intros Hen Hcustom Ha Hb Hcur. unfold submitDisabled in Hen.
  rewrite Hcustom in Hen. cbn [andb] in Hen.
  apply orb_false_elim in Hen as [Hen Hconv].
  apply orb_false_elim in Hen as [_ Hamount].
  apply bool_decide_eq_false in Hamount. apply Qcnot_le_lt in Hamount.
  destruct (converted_amount (transferData s)) as [c|] eqn:Hc; [|done].
  apply orb_false_elim in Hconv as [_ Hpos].
  apply bool_decide_eq_false in Hpos. apply Qcnot_le_lt in Hpos.
  assert (from_account_id (transferData s) ≠ to_account_id (transferData s))
    as Hne.
  { intros Heq. rewrite Heq, Hb in Ha. injection Ha as ->. by apply Hcur. }
  assert (handleSubmit s
          = {| transferData := transferData s; useCustomRate := true;
               showPreview := true; alerts := alerts s;
               posted := posted s |}) as Hsubmit.
  { unfold handleSubmit. rewrite decide_False by done. by rewrite Hcustom. }
  assert (customAmount true (Some c) = Some c) as Hcust
    by by apply customAmount_Some.
  pose proof (cross_currency_preview accounts rates true (transferData s) a b
                Ha Hb Hamount Hcur) as Hprev.
  rewrite Hc, Hcust in Hprev.
  eexists c, _. split_and!; [done|done|exact Hprev|done|done| |].
  - by rewrite Hsubmit.
  - rewrite Hsubmit. unfold confirmButtonRendered. cbn.
    rewrite Hprev. by apply bool_decide_eq_true_2.
Qed.

Lemma enabled_submit_opens_custom_preview_witness :
  let s := {| transferData := Sample.usd_to_eur_custom; useCustomRate := true;
              showPreview := false; alerts := []; posted := [] |} in
  confirmButtonRendered Sample.my_accounts Sample.usd_eur_rates
    (handleSubmit s) = true.
Proof.
  intros s.
  destruct (enabled_submit_opens_custom_preview Sample.my_accounts
              Sample.usd_eur_rates s Sample.checking_usd Sample.travel_eur)
    as (c & p & _ & _ & _ & _ & _ & _ & Hrendered);
    [reflexivity | reflexivity | reflexivity | reflexivity | discriminate |].
  exact Hrendered.
Defined.

Lemma handle_preserves_invariant ctx s e :
  form_invariant s → enabled ctx s e = true → form_invariant (handle e s).
Proof.
  intros (Hsame & Hconv & Halerts) Hen.
  destruct e as [v|v|parsed|checked|parsed|v| | | |]; cbn in Hen |- *.
  - (* SelectFrom *)
    split_and!; [|done..]. cbn. intros ->.
    apply orb_prop in Hen as [Hv|Hv]; [by apply bool_decide_eq_true in Hv|].
    apply bool_decide_eq_true in Hv.
    apply list_elem_of_fmap in Hv as (a & Hid & [Hne _]%list_elem_of_filter).
    by destruct Hne.
  - (* SelectTo *)
    split_and!; [|done..]. cbn. intros Heq.
    apply orb_prop in Hen as [Hv|Hv];
      [apply bool_decide_eq_true in Hv; by rewrite Heq|].
    apply bool_decide_eq_true in Hv.
    apply list_elem_of_fmap in Hv as (a & Hid & [Hne _]%list_elem_of_filter).
    destruct Hne. by rewrite <- Hid.
  - (* ChangeAmount *) done.
  - (* ToggleCustomRate *)
    destruct checked; cbn; [|done].
    split_and!; [done| |done]. intros c Hc. split; [done|].
    by apply (Hconv c).
  - (* ChangeConverted *)
    apply andb_prop in Hen as [Hcustom _].
    split_and!; [done| |done]. cbn. intros c Hc. split; [done|].
    destruct parsed as [c'|]; [|done].
    destruct (truthy c') eqn:Ht; [|done]. injection Hc as <-.
    by apply bool_decide_eq_true in Ht.
  - (* ChangeDescription *) done.
  - (* Submit *)
    apply negb_true_iff in Hen. unfold submitDisabled in Hen.
    apply orb_false_elim in Hen as [Hen _].
    apply orb_false_elim in Hen as [Hen _].
    apply orb_false_elim in Hen as [Hfrom _].
    apply bool_decide_eq_false in Hfrom.
    unfold handleSubmit. rewrite decide_False by (intros Heq; auto).
    done.
  - (* CancelPreview *) done.
  - (* Confirm *) done.
  - (* TransferSucceeded *) done.
Qed.

Lemma step_preserves_invariant s ce :
  form_invariant s → form_invariant (step s ce).
Proof.
  intros Hinv. unfold step. destruct (enabled ce.1 s ce.2) eqn:Hen; [|done].
  by eapply handle_preserves_invariant.
Qed.

Lemma run_from_preserves_invariant s trace :
  form_invariant s → form_invariant (foldl step s trace).
Proof.
  revert s. induction trace as [|ce trace IH]; intros s Hinv; [done|].
  cbn. by apply IH, step_preserves_invariant.
Qed.

(** X16: Whatever the user does with the form, in whatever order and whatever
    the queries deliver: source and destination coincide only while
    neither is chosen, a converted amount is held only with the custom-rate
    option on and is never zero, and the same-account alert of
    [handleSubmit] is never raised. *)
Theorem form_invariant_always (trace : list (Ctx * Event)) :
  form_invariant (run trace).
Proof.
  apply run_from_preserves_invariant. unfold form_invariant. cbn.
  split_and!; done.
Qed.

Lemma step_preserves_posted s ce :
  (∀ a, a ∈ ctx_accounts ce.1 → acc_id a ≠ 0%Z) →
  form_invariant s →
  Forall well_formed (posted s) →
  Forall well_formed (posted (step s ce)).
Proof.
  intros Hids (Hsame & _ & _) Hposted. unfold step.
  destruct (enabled ce.1 s ce.2) eqn:Hen; [|done].
  destruct ce as [ctx e]. cbn in Hen, Hids |- *.
  destruct e as [v|v|parsed|checked|parsed|v| | | |]; cbn; try done.
  - by destruct checked.
  - unfold handleSubmit. by case_decide.
  - (* Confirm *)
    apply Forall_app. split; [done|]. apply Forall_singleton.
    unfold confirmButtonRendered in Hen.
    apply andb_prop in Hen as [_ Hprev].
    apply bool_decide_eq_true in Hprev as [p Hp].
    destruct (preview_Some_inv _ _ _ _ _ Hp)
      as (_ & Hpos & (a & b & Ha & _) & _).
    split; [|done]. intros Heq.
    apply findAccount_Some in Ha as [Hid Hin].
    apply (Hids a Hin). rewrite Hid. by apply Hsame.
Qed.

(** X17: Whatever the user does with the form, as long as no account carries
    the identifier 0 (the value of the "select an account" option), every
    request handed to the transfer endpoint is between two different
    accounts and for a positive amount. *)
Theorem posted_transfers_are_well_formed (trace : list (Ctx * Event)) :
  Forall (fun ce => ∀ a, a ∈ ctx_accounts ce.1 → acc_id a ≠ 0%Z) trace →
  Forall well_formed (posted (run trace)).
Proof.
  unfold run. intros Hids.
  assert (form_invariant initial) as Hinv
    by (unfold form_invariant; cbn; by split_and!).
  assert (Forall well_formed (posted initial)) as Hposted by constructor.
  revert Hinv Hposted. generalize initial as s.
  induction Hids as [|ce trace Hce _ IH]; intros s Hinv Hposted; [done|].
  cbn. apply IH; [by apply step_preserves_invariant|].
  by apply step_preserves_posted.
Qed.

Lemma posted_transfers_are_well_formed_witness :
  let ctx := {| ctx_accounts := Sample.my_accounts;
                ctx_exchangeRates := Sample.usd_eur_rates |} in
  let trace := [(ctx, SelectFrom 1); (ctx, SelectTo 3);
                (ctx, ChangeAmount (Some (Qc_of_Z 20)));
                (ctx, Submit); (ctx, Confirm)] in
  length (posted (run trace)) = 1%nat
  ∧ Forall well_formed (posted (run trace)).
Proof.
  intros ctx trace. split; [reflexivity|].
  apply posted_transfers_are_well_formed.
  repeat constructor; cbn; intros a Ha;
    repeat (apply elem_of_cons in Ha as [->|Ha]; [discriminate|]);
    by apply not_elem_of_nil in Ha.
Defined.

End TransferFormFacts.

(** ** Dashboard charts and rates *)

Section DashboardFacts.
Import Totals DashboardData.

(** X11: Every slice of the expense chart is an expense category with the sum
    of the month's transactions filed under it, that sum is positive, and
    there are at most five slices. *)
Theorem expense_chart_slices now categories transactions item :
  item ∈ expenseData now categories transactions →
  (length (expenseData now categories transactions) ≤ 5)%nat
  ∧ 0 < item.2
  ∧ ∃ cat, cat ∈ categories
           ∧ Category.type cat = Category.EXPENSE
           ∧ item = categoryTotal (monthlyTransactions now transactions) cat.
Proof.
  unfold expenseData. intros Hin. split.
  - rewrite length_take. lia.
  - apply subseteq_take in Hin.
    apply list_elem_of_filter in Hin as [Hpos Hin]. split; [done|].
    apply list_elem_of_fmap in Hin as (cat & -> & Hcat).
    apply list_elem_of_filter in Hcat as [Htype Hcat]. by exists cat.
Qed.

(** X12: A transaction without a category changes nothing in the expense
    chart, wherever it stands in the list. *)
Theorem uncategorised_never_charted now categories before t after :
  tx_category_id t = None →
  expenseData now categories (before ++ t :: after)
  = expenseData now categories (before ++ after).
Proof.
  intros Hnone. unfold expenseData. do 2 f_equal.
  apply map_ext. intros cat. unfold categoryTotal, monthlyTransactions.
  do 2 f_equal. rewrite !filter_app, !filter_cons.
  destruct (decide _) as [_|_]; [|done].
  rewrite filter_cons_False; [done|]. by rewrite Hnone.
Qed.

End DashboardFacts.

(** ** The login form state over sequences of calls *)

Section LoginFormOpsFacts.
Import JS LoginFormStateManager LoginFormOps.

Lemma new_coherent e : hasWindow e = true → coherent (new e).
Proof.
  intros Hw. unfold coherent, new, loadFromStorage, getItem. cbn.
  rewrite Hw. cbn. by rewrite !or_str_empty.
Qed.

Lemma apply_coherent s op : coherent s → coherent (apply s op).
Proof.
  intros (Hw & Hinit & Hu & Hp). unfold coherent.
  destruct op as [v|v| | |]; cbn;
    unfold getUsername, getPassword, setItem, removeItem;
    rewrite ?Hw, ?Hinit; cbn; split_and!; try done.
  - by rewrite lookup_insert_eq.
  - by rewrite lookup_insert_ne.
  - by rewrite lookup_insert_ne.
  - by rewrite lookup_insert_eq.
  - rewrite lookup_delete_ne by done. by rewrite lookup_delete_eq.
  - by rewrite lookup_delete_eq.
Qed.

Lemma run_coherent e ops : hasWindow e = true → coherent (run e ops).
Proof.
  intros Hw. unfold run. pose proof (new_coherent e Hw) as Hnew.
  revert Hnew. generalize (new e) as s.
  induction ops as [|op ops IH]; intros s Hs; [done|].
  cbn. by apply IH, apply_coherent.
Qed.

(** X18: In a browser, after any sequence of calls on the singleton, its two
    fields are what sessionStorage holds under the two keys, so that a
    manager created afresh in the same session (after the page is loaded
    again) starts with the same username and password. *)
Theorem state_survives_reload (e : Env) (ops : list Op) :
  hasWindow e = true →
  coherent (run e ops)
  ∧ username (new (env (run e ops))) = username (run e ops)
  ∧ password (new (env (run e ops))) = password (run e ops).
Proof.
  intros Hw. pose proof (run_coherent e ops Hw) as Hco.
  split; [done|]. destruct Hco as (Hw' & _ & Hu & Hp).
  destruct (new_initialized _ Hw') as (_ & Hu' & Hp').
  by rewrite Hu, Hp, Hu', Hp'.
Qed.

Lemma state_survives_reload_witness :
  let e := {| hasWindow := true; sessionStorage := ∅ |} in
  let s := run e [SetUsername "alice"; SetPassword "secret"; GetUsername] in
  username (new (env s)) = "alice" ∧ password (new (env s)) = "secret".
Proof.
  intros e s.
  destruct (state_survives_reload e
              [SetUsername "alice"; SetPassword "secret"; GetUsername]
              eq_refl) as (_ & Hu & Hp).
  fold s in Hu, Hp. rewrite Hu, Hp. by split.
Defined.

(** X19: Setting one field never changes what the getter of the other field
    returns, in any state of the manager. *)
Theorem setters_independent (s : State) (v : string) :
  (getPassword (setUsername v s)).1 = (getPassword s).1
  ∧ (getUsername (setPassword v s)).1 = (getUsername s).1.
Proof.
  unfold getUsername, getPassword, setUsername, setPassword, loadFromStorage,
    getItem, setItem.
  destruct (initialized s), (hasWindow (env s)) eqn:Hw; cbn;
    rewrite ?Hw; cbn; try done.
  by rewrite !lookup_insert_ne.
Qed.

(** X20: Where there is no [window], no sequence of calls touches the
    environment, and the manager never counts as initialized. *)
Theorem without_window_nothing_is_stored (e : Env) (ops : list Op) :
  hasWindow e = false →
  env (run e ops) = e ∧ initialized (run e ops) = false.
Proof.
  intros Hw. unfold run.
  assert (env (new e) = e ∧ initialized (new e) = false) as Hnew
    by (unfold new, loadFromStorage; cbn; by rewrite Hw).
  revert Hnew. generalize (new e) as s.
  induction ops as [|op ops IH]; intros s [He Hi]; [done|].
  cbn. apply IH.
  destruct op as [v|v| | |]; cbn;
    unfold getUsername, getPassword, loadFromStorage;
    rewrite ?Hi, ?He, ?Hw; cbn; rewrite ?He, ?Hw; by split.
Qed.

Lemma without_window_nothing_is_stored_witness :
  let e := {| hasWindow := false; sessionStorage := ∅ |} in
  env (run e [SetUsername "alice"; Clear; GetPassword]) = e.
Proof.
  intros e.
  by destruct (without_window_nothing_is_stored e
                 [SetUsername "alice"; Clear; GetPassword] eq_refl).
Defined.

End LoginFormOpsFacts.

(** ** The authentication context *)

Section AuthContextFacts.
Import AuthContext.

Lemma truthy_token_Some stored t :
  truthy_token stored = Some t ↔ stored = Some t ∧ t ≠ "".
Proof.
  unfold truthy_token. destruct stored as [t'|].
  - destruct (decide (t' = "")) as [->|Hne]; split.
    + done.
    + by intros [[= <-] ?].
    + by intros [= <-].
    + by intros [[= <-] _].
  - split; [done|by intros [[=] _]].
Qed.

(** X21: A login that fails leaves the user, the loading flag and the
    initialized flag as they were.  The stored token is untouched too,
    unless the token request itself succeeded and only the request for the
    user failed: then the new token stays in localStorage. *)
Theorem failed_login_keeps_auth_state server username password s err s' :
  login server username password s = (inl err, s') →
  user s' = user s
  ∧ isLoading s' = isLoading s
  ∧ isInitialized s' = isInitialized s
  ∧ (localStorage s' = localStorage s
     ∨ ∃ token, post_token server username password = inr token
                ∧ localStorage s'
                  = <[access_token_key := token]> (localStorage s)).
Proof.
  unfold login. destruct (isInitialized s) eqn:Hinit; cbn.
  - destruct (post_token server username password) as [e|token].
    + intros [= <- <-]. split_and!; [done..|by left].
    + destruct (getCurrentUser _ _) as [e|u]; [|by intros [=]].
      intros [= <- <-]. cbn. split_and!; [done..|]. right. by exists token.
  - intros [= <- <-]. split_and!; [done..|by left].
Qed.

Lemma login_failure_authenticated server username password s err :
  (login server username password s).1 = inl err →
  isAuthenticated (login server username password s).2 = isAuthenticated s.
Proof.
  unfold login, isAuthenticated. destruct (isInitialized s) eqn:Hinit; cbn.
  - destruct (post_token server username password) as [e|token]; cbn;
      [by rewrite Hinit|].
    destruct (getCurrentUser _ _) as [e|u]; cbn; done.
  - by rewrite Hinit.
Qed.

Lemma login_success_inv server username password s s' :
  login server username password s = (inr tt, s') →
  isInitialized s = true
  ∧ isAuthenticated s' = true
  ∧ ∃ token userData,
      post_token server username password = inr token
      ∧ token ≠ ""
      ∧ localStorage s' !! access_token_key = Some token
      ∧ get_me server token = inr userData
      ∧ user s' = Some userData.
Proof.
  unfold login. destruct (isInitialized s) eqn:Hinit; cbn; [|by intros [=]].
  destruct (post_token server username password) as [e|token];
    [by intros [=]|].
  unfold getCurrentUser. rewrite lookup_insert_eq.
  destruct (truthy_token (Some token)) as [t|] eqn:Ht; [|by intros [=]].
  apply truthy_token_Some in Ht as [[= <-] Hne].
  destruct (get_me server token) as [e|u] eqn:Hme; [by intros [=]|].
  intros [= <-]. unfold isAuthenticated. cbn.
  split_and!; [done..|].
  exists token, u. split_and!; try done. by rewrite lookup_insert_eq.
Qed.

(** X22: A login that succeeds required an initialized provider; it stores the
    token the back end issued, which is not empty, sets the user the back
    end reports for that token, and leaves the provider authenticated. *)
Theorem successful_login_authenticates server username password s s' :
  login server username password s = (inr tt, s') →
  isInitialized s = true
  ∧ isAuthenticated s' = true
  ∧ ∃ token userData,
      post_token server username password = inr token
      ∧ token ≠ ""
      ∧ localStorage s' !! access_token_key = Some token
      ∧ get_me server token = inr userData
      ∧ user s' = Some userData.
Proof. apply login_success_inv. Qed.

Lemma initialize_settled server storage :
  settled (initialize server (atMount storage)).
Proof.
  unfold settled, initialize, getCurrentUser. cbn.
  destruct (truthy_token (storage !! access_token_key)) as [t|] eqn:Ht.
  - apply truthy_token_Some in Ht as [Hst _].
    destruct (get_me server t); cbn; (split_and!; [done..|]).
    + by intros [? [=]].
    + intros _. by rewrite Hst.
  - cbn. split_and!; [done..|]. by intros [? [=]].
Qed.

Lemma login_preserves server u p s :
  isInitialized s = true →
  (is_Some (user s) → is_Some (localStorage s !! access_token_key)) →
  isInitialized (login server u p s).2 = true
  ∧ isLoading (login server u p s).2 = isLoading s
  ∧ (is_Some (user (login server u p s).2) →
     is_Some (localStorage (login server u p s).2 !! access_token_key)).
Proof.
  intros Hinit Htok. unfold login. rewrite Hinit. cbn.
  destruct (post_token server u p) as [e|token]; [done|].
  destruct (getCurrentUser _ _) as [e|usr]; cbn;
    (split_and!; [done..|]); intros _; by rewrite lookup_insert_eq.
Qed.

Lemma call_settled s c : settled s → settled (call s c).
Proof.
  intros (Hinit & Hload & Htok). unfold settled.
  destruct c as [server u p|server u e p|]; cbn.
  - destruct (login_preserves server u p s Hinit Htok) as (-> & -> & Ht).
    by split_and!.
  - unfold register.
    destruct (post_register server u e p USD) as [err|_]; cbn; [done|].
    destruct (login_preserves server u p (setIsLoading true s) Hinit Htok)
      as (Hi & _ & Ht).
    destruct (login server u p (setIsLoading true s)) as [result s2].
    cbn in *. by split_and!.
  - split_and!; [done..|]. by intros [? [=]].
Qed.

(** X23: Once the provider has mounted, whatever is called on it (logins,
    registrations, logouts, with whatever the back end answers): it is
    initialized, it is not loading, and whenever a user is set a token is
    stored in localStorage. *)
Theorem session_is_settled server storage (calls : list Call) :
  settled (session server storage calls).
Proof.
  unfold session. pose proof (initialize_settled server storage) as Hs.
  revert Hs. generalize (initialize server (atMount storage)) as s.
  induction calls as [|c calls IH]; intros s Hs; [done|].
  cbn. by apply IH, call_settled.
Qed.

(** X24: A session survives a reload: after a successful login, a provider
    mounted afresh on the same localStorage, with the back end answering
    as before, has the same user and is authenticated. *)
Theorem login_survives_reload server username password s s' :
  login server username password s = (inr tt, s') →
  user (initialize server (atMount (localStorage s'))) = user s'
  ∧ isAuthenticated (initialize server (atMount (localStorage s'))) = true.
Proof.
  unfold login. destruct (isInitialized s) eqn:Hinit; cbn; [|by intros [=]].
  destruct (post_token server username password) as [e|token];
    [by intros [=]|].
  destruct (getCurrentUser server _) as [e|u] eqn:Hme; [by intros [=]|].
  intros [= <-]. cbn. unfold initialize, isAuthenticated. cbn.
  rewrite Hme. unfold getCurrentUser in Hme.
  destruct (truthy_token _) as [t|]; [|done]. by cbn.
Qed.

(** X25: After a logout the token is gone: the provider is not authenticated,
    and one mounted afresh on the same localStorage is not either,
    whatever the back end would answer. *)
Theorem logout_ends_session server (s : State) :
  isAuthenticated (logout s) = false
  ∧ localStorage (logout s) !! access_token_key = None
  ∧ isAuthenticated (initialize server (atMount (localStorage (logout s))))
    = false.
Proof.
  unfold isAuthenticated, logout, initialize, atMount. cbn.
  rewrite lookup_delete_eq. cbn. split_and!; try done.
Qed.

End AuthContextFacts.

(** ** The login page *)

Section LoginPageFacts.
Import JS LoginFormStateManager LoginPage.

Lemma errorMessage_nonempty err : errorMessage err ≠ "".
Proof.
  unfold errorMessage, or_str.
  destruct (AuthContext.detail err) as [d|];
    [destruct (decide (d = "")) as [->|]; [|done]|];
    (destruct (AuthContext.message err) as [m|]; [|done]);
    by destruct (decide (m = "")).
Qed.

Lemma mount_error f a :
  error (page (mount f a))
  = default "" (sessionStorage (env f) !! login_error_key).
Proof.
  unfold mount, getUsername, getPassword, loadFromStorage, getItem.
  destruct (initialized f) eqn:Hi; cbn; rewrite ?Hi; cbn.
  - by rewrite or_str_empty.
  - destruct (hasWindow (env f)) eqn:Hw; cbn; rewrite ?Hi; cbn;
      by rewrite ?Hw, or_str_empty.
Qed.

Lemma withStorage_coherent (f : Env → Env) s :
  LoginFormOps.coherent s →
  hasWindow (f (env s)) = true →
  sessionStorage (f (env s)) !! username_key
  = sessionStorage (env s) !! username_key →
  sessionStorage (f (env s)) !! password_key
  = sessionStorage (env s) !! password_key →
  LoginFormOps.coherent (withStorage f s).
Proof.
  intros (_ & Hi & Hu & Hp) Hw Hu' Hp'. unfold LoginFormOps.coherent. cbn.
  by rewrite Hu', Hp'.
Qed.

Lemma getters_coherent s :
  LoginFormOps.coherent s →
  getUsername s = (username s, s) ∧ getPassword s = (password s, s).
Proof.
  intros (_ & Hi & _). unfold getUsername, getPassword. by rewrite Hi.
Qed.

(** On a form state that is initialized the body of the effect only
    fills the fields the page holds empty. *)
Lemma effectBody_coherent w :
  LoginFormOps.coherent (form w) →
  effectBody w
  = {| page := {| pg_username := if decide (pg_username (page w) = "")
                                 then username (form w)
                                 else pg_username (page w);
                  pg_password := if decide (pg_password (page w) = "")
                                 then password (form w)
                                 else pg_password (page w);
                  loading := loading (page w);
                  error := error (page w) |};
       form := form w;
       auth := auth w |}.
Proof.
  intros Hco. destruct (getters_coherent _ Hco) as [Hu Hp].
  unfold effectBody. by rewrite Hu, Hp.
Qed.

Lemma removeError_coherent s :
  LoginFormOps.coherent s →
  LoginFormOps.coherent (withStorage (removeItem login_error_key) s).
Proof.
  intros Hco. apply withStorage_coherent;
    [done|apply Hco|by apply lookup_delete_ne..].
Qed.

Lemma removeError_twice s :
  withStorage (removeItem login_error_key)
    (withStorage (removeItem login_error_key) s)
  = withStorage (removeItem login_error_key) s.
Proof.
  unfold withStorage, removeItem. cbn. by rewrite delete_delete_eq.
Qed.

Lemma filled_twice (shown stored : string) :
  (if decide ((if decide (shown = "") then stored else shown) = "")
   then stored else if decide (shown = "") then stored else shown)
  = if decide (shown = "") then stored else shown.
Proof. repeat case_decide; congruence. Qed.

Lemma withStorage_fields (f : Env → Env) s :
  username (withStorage f s) = username s
  ∧ password (withStorage f s) = password s.
Proof. done. Qed.

(** What a render does to a page whose form state is initialized: the
    empty fields are filled, and the stored error is removed when the
    cleanup of the previous render, or of this one, saw the provider
    authenticated. *)
Lemma rendered_coherent before w :
  LoginFormOps.coherent (form w) →
  ∃ removed : bool,
    (AuthContext.isAuthenticated before = true → removed = true)
    ∧ (removed = true →
       AuthContext.isAuthenticated before = true
       ∨ AuthContext.isAuthenticated (auth w) = true)
    ∧ rendered before w
      = {| page := {| pg_username := if decide (pg_username (page w) = "")
                                     then username (form w)
                                     else pg_username (page w);
                      pg_password := if decide (pg_password (page w) = "")
                                     then password (form w)
                                     else pg_password (page w);
                      loading := loading (page w);
                      error := error (page w) |};
           form := if removed
                   then withStorage (removeItem login_error_key) (form w)
                   else form w;
           auth := auth w |}.
Proof.
  intros Hco. pose proof (removeError_coherent _ Hco) as Hco'.
  destruct (withStorage_fields (removeItem login_error_key) (form w))
    as [Hu Hp].
  unfold rendered, effectCleanup.
  destruct (AuthContext.isAuthenticated before) eqn:Hbefore.
  - exists true. split; [done|]. split; [by left|].
    rewrite effectBody_coherent by done.
    cbn [page form auth pg_username pg_password loading error].
    rewrite Hu, Hp.
    case_decide as Hsame; [done|].
    destruct (AuthContext.isAuthenticated (auth w)).
    + rewrite effectBody_coherent
        by (cbn [form]; by rewrite removeError_twice).
      cbn [page form auth pg_username pg_password loading error].
      by rewrite removeError_twice, Hu, Hp, !filled_twice.
    + rewrite effectBody_coherent by done.
      cbn [page form auth pg_username pg_password loading error].
      by rewrite Hu, Hp, !filled_twice.
  - rewrite effectBody_coherent by done.
    cbn [page form auth pg_username pg_password loading error].
    case_decide as Hsame.
    + exists false. by split_and!.
    + destruct (AuthContext.isAuthenticated (auth w)) eqn:Hauth.
      * exists true. split; [done|]. split; [by right|].
        rewrite effectBody_coherent by done.
        cbn [page form auth pg_username pg_password loading error].
        by rewrite Hu, Hp, !filled_twice.
      * exists false. split; [done|]. split; [done|].
        rewrite effectBody_coherent by done.
        cbn [page form auth pg_username pg_password loading error].
        by rewrite !filled_twice.
Qed.

(** The page after a login that failed, from an initialized form
    state. *)
Lemma submitted_failure server w err a :
  LoginFormOps.coherent (form w) →
  loading (page w) = false →
  AuthContext.isLoading (auth w) = false →
  AuthContext.login server (pg_username (page w)) (pg_password (page w))
    (auth w) = (inl err, a) →
  ∃ f',
    submitted server w
    = {| page := {| pg_username := if decide (pg_username (page w) = "")
                                   then username (form w)
                                   else pg_username (page w);
                    pg_password := if decide (pg_password (page w) = "")
                                   then password (form w)
                                   else pg_password (page w);
                    loading := false;
                    error := errorMessage err |};
         form := f';
         auth := a |}
    ∧ LoginFormOps.coherent f'
    ∧ username f' = username (form w)
    ∧ password f' = password (form w)
    ∧ sessionStorage (env f') !! login_error_key
      = (if AuthContext.isAuthenticated (auth w) then None
         else Some (errorMessage err))
    ∧ AuthContext.isAuthenticated a = AuthContext.isAuthenticated (auth w).
Proof.
  intros Hco Hload Hauth Hlogin. unfold submitted.
  rewrite Hload, Hauth. cbn [orb].
  pose proof (login_failure_authenticated server (pg_username (page w))
                (pg_password (page w)) (auth w) err) as Hsame.
  rewrite Hlogin in Hsame |- *. specialize (Hsame eq_refl). cbn in Hsame.
  set (w0 := {| page := {| pg_username := pg_username (page w);
                           pg_password := pg_password (page w);
                           loading := true; error := "" |};
                form := form w; auth := auth w |}).
  destruct (rendered_coherent (auth w) w0 Hco) as (r1 & Hr1 & Hr1' & ->).
  cbn [page form auth pg_username pg_password loading error w0].
  set (f1 := if r1 then withStorage (removeItem login_error_key) (form w)
             else form w).
  assert (LoginFormOps.coherent f1) as Hco1
    by (subst f1; destruct r1; [by apply removeError_coherent|done]).
  assert (username f1 = username (form w) ∧ password f1 = password (form w))
    as [Hu1 Hp1] by (subst f1; by destruct r1).
  set (w2 := {| page := _; form := withStorage _ f1; auth := a |}).
  assert (LoginFormOps.coherent (form w2)) as Hco2.
  { subst w2. cbn [form]. apply withStorage_coherent;
      [done|apply Hco1|by apply lookup_insert_ne..]. }
  destruct (rendered_coherent (auth w) w2 Hco2) as (r2 & Hr2 & Hr2' & ->).
  subst w2. cbn [page form auth pg_username pg_password loading error].
  destruct (withStorage_fields (setItem login_error_key (errorMessage err)) f1)
    as [-> ->].
  rewrite Hu1, Hp1, !filled_twice.
  assert (r2 = AuthContext.isAuthenticated (auth w)) as ->.
  { destruct (AuthContext.isAuthenticated (auth w)) eqn:Hb; [by apply Hr2|].
    destruct r2; [|done]. destruct (Hr2' eq_refl) as [?|Ha]; [done|].
    cbn [auth] in Ha. congruence. }
  eexists. split; [reflexivity|].
  destruct (AuthContext.isAuthenticated (auth w)); split_and!; try done;
    try (cbn; by rewrite ?lookup_delete_eq, ?lookup_insert_eq);
    try apply removeError_coherent;
    apply withStorage_coherent;
    [done|apply Hco1|by apply lookup_insert_ne..].
Qed.

(** X26: A login that fails leaves the form as typed: the page shows a
    message that is never empty, the username and password stay on the
    page (a field the page held empty is filled from the login form state)
    and in the login form state, and the submission is over.  The message
    is stored under "login_error", and shown again by a page mounted
    again, when the provider is not authenticated; when it is, the cleanup
    of the page's effect removes the stored message at the next render. *)
Theorem failed_login_keeps_form server w err :
  LoginFormOps.coherent (form w) →
  loading (page w) = false →
  AuthContext.isLoading (auth w) = false →
  (AuthContext.login server (pg_username (page w)) (pg_password (page w))
     (auth w)).1 = inl err →
  let w' := submitted server w in
  error (page w') = errorMessage err
  ∧ errorMessage err ≠ ""
  ∧ pg_username (page w')
    = (if decide (pg_username (page w) = "") then username (form w)
       else pg_username (page w))
  ∧ pg_password (page w')
    = (if decide (pg_password (page w) = "") then password (form w)
       else pg_password (page w))
  ∧ loading (page w') = false
  ∧ sessionStorage (env (form w')) !! login_error_key
    = (if AuthContext.isAuthenticated (auth w) then None
       else Some (errorMessage err))
  ∧ (getUsername (form w')).1 = (getUsername (form w)).1
  ∧ (getPassword (form w')).1 = (getPassword (form w)).1
  ∧ error (page (mount (form w') (auth w')))
    = (if AuthContext.isAuthenticated (auth w) then ""
       else errorMessage err).
Proof.
  intros Hco Hload Hauth Hfail w'. subst w'.
  destruct (AuthContext.login server (pg_username (page w))
              (pg_password (page w)) (auth w)) as [result a] eqn:Hlogin.
  cbn in Hfail. subst result.
  destruct (submitted_failure server w err a Hco Hload Hauth Hlogin)
    as (f' & -> & Hco' & Hu & Hp & Hstored & _).
  cbn [page form auth pg_username pg_password loading error].
  destruct (getters_coherent _ Hco) as [Hgu Hgp].
  destruct (getters_coherent _ Hco') as [Hgu' Hgp'].
  split_and!; try done.
  - apply errorMessage_nonempty.
  - by rewrite Hgu, Hgu', Hu.
  - by rewrite Hgp, Hgp', Hp.
  - rewrite mount_error, Hstored.
    by destruct (AuthContext.isAuthenticated (auth w)).
Qed.

(** The page after a login that succeeded, from an initialized form
    state. *)
Lemma submitted_success server w a :
  LoginFormOps.coherent (form w) →
  loading (page w) = false →
  AuthContext.isLoading (auth w) = false →
  AuthContext.login server (pg_username (page w)) (pg_password (page w))
    (auth w) = (inr tt, a) →
  let w' := submitted server w in
  LoginFormOps.coherent (form w')
  ∧ username (form w') = "" ∧ password (form w') = ""
  ∧ sessionStorage (env (form w')) !! username_key = None
  ∧ sessionStorage (env (form w')) !! password_key = None
  ∧ sessionStorage (env (form w')) !! login_error_key = None
  ∧ error (page w') = ""
  ∧ loading (page w') = false
  ∧ pg_username (page w')
    = (if decide (pg_username (page w) = "") then username (form w)
       else pg_username (page w))
  ∧ pg_password (page w')
    = (if decide (pg_password (page w) = "") then password (form w)
       else pg_password (page w))
  ∧ auth w' = a
  ∧ AuthContext.isAuthenticated a = true.
Proof.
  intros Hco Hload Hauth Hlogin w'. subst w'. unfold submitted.
  rewrite Hload, Hauth. cbn [orb]. rewrite Hlogin.
  destruct (login_success_inv _ _ _ _ _ Hlogin) as (_ & Hauthd & _).
  set (w0 := {| page := {| pg_username := pg_username (page w);
                           pg_password := pg_password (page w);
                           loading := true; error := "" |};
                form := form w; auth := auth w |}).
  destruct (rendered_coherent (auth w) w0 Hco) as (r1 & _ & _ & ->).
  cbn [page form auth pg_username pg_password loading error w0].
  set (f1 := if r1 then withStorage (removeItem login_error_key) (form w)
             else form w).
  assert (LoginFormOps.coherent f1) as Hco1
    by (subst f1; destruct r1; [by apply removeError_coherent|done]).
  assert (username f1 = username (form w) ∧ password f1 = password (form w))
    as [Hu1 Hp1] by (subst f1; by destruct r1).
  set (w2 := {| page := _; form := f1; auth := a |}).
  destruct (rendered_coherent (auth w) w2 Hco1) as (r2 & _ & _ & ->).
  subst w2. cbn [page form auth pg_username pg_password loading error].
  rewrite Hu1, Hp1, !filled_twice.
  set (f2 := if r2 then withStorage (removeItem login_error_key) f1 else f1).
  assert (LoginFormOps.coherent f2) as Hco2
    by (subst f2; destruct r2; [by apply removeError_coherent|done]).
  set (f3 := withStorage (removeItem login_error_key) (clear f2)).
  assert (LoginFormOps.coherent f3) as Hco3.
  { subst f3. apply removeError_coherent.
    apply (apply_coherent _ LoginFormOps.Clear Hco2). }
  set (w3 := {| page := _; form := f3; auth := a |}).
  destruct (rendered_coherent a w3 Hco3) as (r3 & Hr3 & _ & ->).
  rewrite (Hr3 Hauthd).
  subst w3. cbn [page form auth pg_username pg_password loading error].
  assert (username f3 = "" ∧ password f3 = "") as [Hu3 Hp3] by done.
  rewrite Hu3, Hp3.
  assert (hasWindow (env f2) = true) as Hw2 by apply Hco2.
  split_and!; try done.
  - by apply removeError_coherent.
  - subst f3. cbn. rewrite Hw2. cbn.
    rewrite !(lookup_delete_ne _ login_error_key username_key) by done.
    rewrite (lookup_delete_ne _ password_key username_key) by done.
    by rewrite lookup_delete_eq.
  - subst f3. cbn. rewrite Hw2. cbn.
    rewrite !(lookup_delete_ne _ login_error_key password_key) by done.
    by rewrite lookup_delete_eq.
  - cbn. by rewrite lookup_delete_eq.
  - repeat case_decide; congruence.
  - repeat case_decide; congruence.
Qed.

(** X30: With the renders it causes and the page's effect taken into
    account, a login that succeeds from an initialized form state leaves
    none of the three keys in sessionStorage: both getters return the empty
    string, no error is shown, the submission is over, the provider is
    authenticated, and what was typed stays on the page. *)
Theorem successful_login_leaves_nothing_stored server w :
  LoginFormOps.coherent (form w) →
  loading (page w) = false →
  AuthContext.isLoading (auth w) = false →
  (AuthContext.login server (pg_username (page w)) (pg_password (page w))
     (auth w)).1 = inr tt →
  let w' := submitted server w in
  sessionStorage (env (form w')) !! username_key = None
  ∧ sessionStorage (env (form w')) !! password_key = None
  ∧ sessionStorage (env (form w')) !! login_error_key = None
  ∧ (getUsername (form w')).1 = ""
  ∧ (getPassword (form w')).1 = ""
  ∧ error (page w') = ""
  ∧ loading (page w') = false
  ∧ AuthContext.isAuthenticated (auth w') = true
  ∧ pg_username (page w')
    = (if decide (pg_username (page w) = "") then username (form w)
       else pg_username (page w))
  ∧ pg_password (page w')
    = (if decide (pg_password (page w) = "") then password (form w)
       else pg_password (page w)).
Proof.
  intros Hco Hload Hauth Hok w'.
  destruct (AuthContext.login server (pg_username (page w))
              (pg_password (page w)) (auth w)) as [[e|[]] a] eqn:Hlogin;
    cbn in Hok; [done|].
  destruct (submitted_success server w a Hco Hload Hauth Hlogin)
    as (Hco' & Hu & Hp & Hsu & Hsp & Hse & Herr & Hload' & Hpu & Hpp
        & Ha & Hyes).
  fold w' in Hco', Hu, Hp, Hsu, Hsp, Hse, Herr, Hload', Hpu, Hpp, Ha.
  destruct (getters_coherent _ Hco') as [Hgu Hgp].
  rewrite Hgu, Hgp, Ha. by split_and!.
Qed.

(** X27: A login that succeeds in a browser clears the login form state and the
    stored error: none of the three keys is left in sessionStorage, both
    getters return the empty string, no error is shown, and the provider
    is authenticated. *)
Theorem successful_login_clears_form server w :
  loading (page w) = false →
  AuthContext.isLoading (auth w) = false →
  hasWindow (env (form w)) = true →
  (AuthContext.login server (pg_username (page w)) (pg_password (page w))
     (auth w)).1 = inr tt →
  let w' := handleSubmit server w in
  sessionStorage (env (form w')) !! username_key = None
  ∧ sessionStorage (env (form w')) !! password_key = None
  ∧ sessionStorage (env (form w')) !! login_error_key = None
  ∧ (getUsername (form w')).1 = ""
  ∧ (getPassword (form w')).1 = ""
  ∧ error (page w') = ""
  ∧ loading (page w') = false
  ∧ AuthContext.isAuthenticated (auth w') = true.
Proof.
  intros Hload Hauth Hw Hok w'. subst w'. unfold handleSubmit.
  rewrite Hload, Hauth. cbn [orb].
  destruct (AuthContext.login _ _ _ _) as [[e|[]] a] eqn:Hlogin;
    cbn in Hok; [done|].
  destruct (login_success_inv _ _ _ _ _ Hlogin) as (_ & Hauthd & _).
  cbn [page form auth error loading].
  unfold getUsername, getPassword, withStorage, clear, loadFromStorage,
    getItem, removeItem. cbn. rewrite Hw. cbn.
  destruct (initialized (form w)); cbn; rewrite ?or_str_empty;
    rewrite ?lookup_delete_eq;
    rewrite ?(lookup_delete_ne _ login_error_key username_key),
            ?(lookup_delete_ne _ login_error_key password_key),
            ?(lookup_delete_ne _ password_key username_key) by done;
    rewrite ?lookup_delete_eq; by split_and!.
Qed.

(** The invariant of the page: [consistent], and [mirrored] as long as
    the provider is not authenticated. *)
Lemma clearError_invariant w :
  consistent w ∧ (AuthContext.isAuthenticated (auth w) = false → mirrored w) →
  consistent (clearError w)
  ∧ (AuthContext.isAuthenticated (auth (clearError w)) = false →
     mirrored (clearError w)).
Proof.
  intros [(Hco & Hload & Hshown) Hmir]. unfold clearError.
  destruct (decide (error (page w) = "")) as [_|_]; [done|].
  unfold consistent, mirrored. cbn [page form auth error loading].
  pose proof (removeError_coherent _ Hco) as Hco'.
  split_and!; try done; cbn; rewrite lookup_delete_eq; done.
Qed.

Lemma change_invariant w (f : LoginFormStateManager.State) (p : Page) :
  consistent w ∧ (AuthContext.isAuthenticated (auth w) = false → mirrored w) →
  LoginFormOps.coherent f →
  sessionStorage (env f) !! login_error_key
  = sessionStorage (env (form w)) !! login_error_key →
  loading p = loading (page w) → error p = error (page w) →
  let w' := clearError {| page := p; form := f; auth := auth w |} in
  auth w' = auth w
  ∧ consistent w'
  ∧ (AuthContext.isAuthenticated (auth w') = false → mirrored w').
Proof.
  intros [(Hco & Hload & Hshown) Hmir] Hf Hstored Hl He w'. subst w'.
  split; [unfold clearError; by case_decide|].
  apply clearError_invariant. unfold consistent, mirrored.
  cbn [page form auth]. rewrite Hstored, Hl, He.
  split; [done|]. intros Hno. destruct (Hmir Hno) as (_ & Herr & _).
  done.
Qed.

Lemma rendered_invariant before w :
  (AuthContext.isAuthenticated before = true →
   AuthContext.isAuthenticated (auth w) = true) →
  consistent w ∧ (AuthContext.isAuthenticated (auth w) = false → mirrored w) →
  consistent (rendered before w)
  ∧ (AuthContext.isAuthenticated (auth (rendered before w)) = false →
     mirrored (rendered before w)).
Proof.
  intros Hbefore [(Hco & Hload & Hshown) Hmir].
  destruct (rendered_coherent before w Hco) as (r & Hr & Hr' & ->).
  unfold consistent, mirrored. cbn [page form auth error loading].
  destruct r.
  - assert (AuthContext.isAuthenticated (auth w) = true) as Hyes
      by (destruct (Hr' eq_refl); auto).
    pose proof (removeError_coherent _ Hco) as Hco'.
    split_and!; try done.
    + cbn. by rewrite lookup_delete_eq.
    + intros Hno. congruence.
  - split; [done|]. intros Hno. destruct (Hmir Hno) as (_ & Herr & _). done.
Qed.

Lemma step_invariant w e :
  consistent w ∧ (AuthContext.isAuthenticated (auth w) = false → mirrored w) →
  consistent (step w e)
  ∧ (AuthContext.isAuthenticated (auth (step w e)) = false →
     mirrored (step w e)).
Proof.
  intros Hinv. pose proof Hinv as [(Hco & Hload & Hshown) Hmir].
  pose proof Hco as (Hw & Hinit & _).
  destruct e as [v|v|server]; cbn [step].
  - unfold afterChange, handleUsernameChange.
    destruct (change_invariant w (setUsername v (form w))
                {| pg_username := v; pg_password := pg_password (page w);
                   loading := loading (page w); error := error (page w) |}
                Hinv) as (Hauth & Hinv');
      [apply (apply_coherent _ (LoginFormOps.SetUsername v) Hco)
      |cbn; rewrite Hw; cbn; by rewrite lookup_insert_ne|done|done|].
    case_decide; [done|]. apply rendered_invariant; [|done].
    by rewrite Hauth.
  - unfold afterChange, handlePasswordChange.
    destruct (change_invariant w (setPassword v (form w))
                {| pg_username := pg_username (page w); pg_password := v;
                   loading := loading (page w); error := error (page w) |}
                Hinv) as (Hauth & Hinv');
      [apply (apply_coherent _ (LoginFormOps.SetPassword v) Hco)
      |cbn; rewrite Hw; cbn; by rewrite lookup_insert_ne|done|done|].
    case_decide; [done|]. apply rendered_invariant; [|done].
    by rewrite Hauth.
  - destruct (AuthContext.isLoading (auth w)) eqn:Hauth.
    { unfold submitted. by rewrite Hload, Hauth. }
    destruct (AuthContext.login server (pg_username (page w))
                (pg_password (page w)) (auth w)) as [[err|[]] a] eqn:Hlogin.
    + destruct (submitted_failure server w err a Hco Hload Hauth Hlogin)
        as (f' & -> & Hco' & _ & _ & Hstored & Hsame).
      unfold consistent, mirrored. cbn [page form auth error loading].
      rewrite Hstored, Hsame.
      destruct (AuthContext.isAuthenticated (auth w)).
      * split; [by split_and!|done].
      * split; [split_and!; [done..|by intros e [= <-]]|by intros _].
    + destruct (submitted_success server w a Hco Hload Hauth Hlogin)
        as (Hco' & _ & _ & _ & _ & Hstored & Herr & Hload' & _ & _
            & Ha & Hyes).
      unfold consistent, mirrored. rewrite Hstored, Herr, Hload', Ha, Hyes.
      by split_and!.
Qed.

Lemma mount_initialized f a :
  initialized f = true →
  mount f a
  = {| page := {| pg_username := username f; pg_password := password f;
                  loading := false;
                  error := default ""
                             (sessionStorage (env f) !! login_error_key) |};
       form := f; auth := a |}.
Proof.
  intros Hi. unfold mount, getUsername, getPassword, getItem.
  rewrite Hi. cbn. rewrite Hi. cbn. by rewrite or_str_empty.
Qed.

Lemma mounted_invariant env0 a :
  hasWindow env0 = true →
  consistent (mounted (new env0) a)
  ∧ (AuthContext.isAuthenticated (auth (mounted (new env0) a)) = false →
     mirrored (mounted (new env0) a)).
Proof.
  intros Hw. pose proof (new_coherent env0 Hw) as Hco.
  unfold mounted. rewrite mount_initialized by apply Hco.
  rewrite effectBody_coherent by done.
  cbn [page form auth pg_username pg_password loading error].
  rewrite decide_True by (f_equal; by case_decide).
  unfold consistent, mirrored. cbn [page form auth error loading].
  split_and!; try done.
  intros e He. by rewrite He.
Qed.

(** X28: In a browser, whatever the user types and submits and whatever
    the back end answers: the login form state repeats the stored username
    and password, no submission is left under way, and an error that is
    stored is the error shown.  As long as the provider is not
    authenticated, moreover, the error shown is the error stored, and a
    page mounted again on the same form state shows the form state's
    username and password and the same error.  (Once the provider is
    authenticated the cleanup of the page's effect removes the stored
    error, also while the page shows one.) *)
Theorem login_page_mirrors_storage (env0 : Env) (a : AuthContext.State)
    (events : list Event) :
  hasWindow env0 = true →
  let w := run env0 a events in
  consistent w
  ∧ (AuthContext.isAuthenticated (auth w) = false →
     mirrored w
     ∧ page (mount (form w) (auth w))
       = {| pg_username := username (form w);
            pg_password := password (form w);
            loading := false; error := error (page w) |}).
Proof.
  intros Hw w.
  assert (consistent w
          ∧ (AuthContext.isAuthenticated (auth w) = false → mirrored w))
    as [Hcons Hmir].
  { subst w. unfold run.
    pose proof (mounted_invariant env0 a Hw) as Hstart.
    revert Hstart. generalize (mounted (new env0) a) as w0.
    induction events as [|e events IH]; intros w0 Hw0; [done|].
    cbn. by apply IH, step_invariant. }
  split; [done|]. intros Hno. destruct (Hmir Hno) as (Hco & Herr & Hload).
  split; [done|].
  rewrite mount_initialized by apply Hco. cbn. by rewrite Herr.
Qed.

End LoginPageFacts.

(** ** Editing a recurring template *)

Section RecurringEditFacts.
Import RecurringTransactionsPage.

Lemma before_T_iso date time : no_T date = true → before_T (iso date time) = date.
Proof.
  intros Hd. unfold iso.
  destruct time as [tm|].
  - induction date as [|c d IH].
    + reflexivity.
    + cbn [no_T] in Hd. apply andb_prop in Hd as [Hc Hd].
      apply negb_true_iff in Hc.
      change (String c d +:+ String "T"%char tm)
        with (String c (d +:+ String "T"%char tm)).
      cbn [before_T]. rewrite Hc. by rewrite IH.
  - induction date as [|c d IH]; [done|].
    cbn [no_T] in Hd. apply andb_prop in Hd as [Hc Hd].
    apply negb_true_iff in Hc. cbn [before_T]. rewrite Hc. by rewrite IH.
Qed.

(** X29: Opening a template for editing and saving it unchanged sends an
    update for the same identifier that carries the template's own values,
    with each date cut down to its date part (what stands before the
    "T"), provided the date parts are not empty and the optional
    description and category, where present, are not the empty string and
    not 0. *)
Theorem edit_then_save_round_trip (t : Template) (s : PageState)
    (start : string) (start_time : option string)
    (stop : option (string * option string)) :
  t_start_date t = iso start start_time →
  no_T start = true →
  t_end_date t = (fun e => iso e.1 e.2) <$> stop →
  (∀ e, stop = Some e → no_T e.1 = true ∧ e.1 ≠ "") →
  t_description t ≠ Some "" →
  t_category_id t ≠ Some 0%Z →
  handleSubmit (handleEdit t s)
  = UpdateRequest (t_id t)
      {| d_name := t_name t; d_amount := t_amount t; d_type := t_type t;
         d_description := t_description t; d_currency := t_currency t;
         d_frequency := t_frequency t; d_start_date := start;
         d_end_date := fst <$> stop; d_account_id := t_account_id t;
         d_category_id := t_category_id t |}.
Proof.
  intros Hstart Hno Hend Hstop Hdesc Hcat.
  unfold handleSubmit, handleEdit. cbn. rewrite Hstart, Hend.
  rewrite before_T_iso by done. do 2 f_equal.
  - unfold nonempty, JS.or_str. destruct (t_description t) as [d|]; [|done].
    destruct (decide (d = "")) as [->|Hd]; [done|]. by rewrite decide_False.
  - destruct stop as [[e tm]|]; cbn; [|done].
    destruct (Hstop _ eq_refl) as [Hnt Hne]. cbn in Hnt, Hne.
    assert (iso e tm ≠ "") as Hiso.
    { destruct tm; cbn; [|done]. by destruct e. }
    rewrite decide_False by done. rewrite before_T_iso by done.
    unfold nonempty. by rewrite decide_False.
  - unfold nonzero. destruct (t_category_id t) as [c|]; [|done].
    destruct (decide (c = 0%Z)) as [->|Hc]; [done|]. by rewrite decide_False.
Qed.

Lemma edit_then_save_round_trip_witness :
  ∃ data, handleSubmit
            (handleEdit Sample3.rent
               {| isModalOpen := false; editingTransaction := None;
                  formData := mkForm "" 0 EXPENSE "" USD MONTHLY "" "" 0 0 |})
          = UpdateRequest 5 data
          ∧ d_start_date data = "2024-01-31"
          ∧ d_description data = Some "Flat".
Proof.
  eexists. split.
  - apply (edit_then_save_round_trip Sample3.rent _ "2024-01-31"
             (Some "00:00:00") None); try done.
  - by split.
Defined.

End RecurringEditFacts.

(** ** Instances *)

Section MoreWitnesses.

Lemma expense_chart_slices_witness :
  let chart := DashboardData.expenseData Sample2.today
                 [Sample3.food; Sample3.salary] [Sample3.groceries] in
  ∃ item, item ∈ chart ∧ item.1 = "Food" ∧ 0 < item.2
          ∧ (length chart ≤ 5)%nat.
Proof.
  intros chart.
  set (item := DashboardData.categoryTotal
                 (Totals.monthlyTransactions Sample2.today [Sample3.groceries])
                 Sample3.food).
  assert (item ∈ chart) as Hin by (vm_compute; apply list_elem_of_here).
  exists item. split; [exact Hin|]. split; [reflexivity|].
  destruct (expense_chart_slices Sample2.today [Sample3.food; Sample3.salary]
              [Sample3.groceries] item Hin) as (Hlen & Hpos & _).
  by split.
Defined.

Lemma uncategorised_never_charted_witness :
  DashboardData.expenseData Sample2.today [Sample3.food]
    [Sample2.eur_groceries; Sample3.groceries]
  = DashboardData.expenseData Sample2.today [Sample3.food]
      [Sample3.groceries].
Proof.
  apply (uncategorised_never_charted Sample2.today [Sample3.food] []
           Sample2.eur_groceries [Sample3.groceries]).
  reflexivity.
Defined.

Lemma failed_login_keeps_auth_state_witness :
  AuthContext.user
    (AuthContext.login Sample3.server "alice" "wrong" Sample3.signed_out).2
  = None.
Proof.
  destruct (AuthContext.login Sample3.server "alice" "wrong"
              Sample3.signed_out) as [result s'] eqn:Hlogin.
  vm_compute in Hlogin. injection Hlogin as <- <-.
  by destruct (failed_login_keeps_auth_state Sample3.server "alice" "wrong"
                 Sample3.signed_out _ _ eq_refl) as (Hu & _).
Defined.

Lemma successful_login_authenticates_witness :
  AuthContext.isAuthenticated
    (AuthContext.login Sample3.server "alice" "secret" Sample3.signed_out).2
  = true.
Proof.
  by destruct (successful_login_authenticates Sample3.server "alice" "secret"
                 Sample3.signed_out _ eq_refl) as (_ & Hauth & _).
Defined.

Lemma login_survives_reload_witness :
  let s' := (AuthContext.login Sample3.server "alice" "secret"
               Sample3.signed_out).2 in
  AuthContext.user
    (AuthContext.initialize Sample3.server
       (AuthContext.atMount (AuthContext.localStorage s')))
  = Some Sample3.alice.
Proof.
  intros s'.
  destruct (login_survives_reload Sample3.server "alice" "secret"
              Sample3.signed_out _ eq_refl) as (Huser & _).
  exact Huser.
Defined.

Lemma failed_login_keeps_form_witness :
  let w' := LoginPage.submitted Sample3.server
              (Sample3.typed "alice" "wrong") in
  LoginPage.error (LoginPage.page w') = "Incorrect username or password"
  ∧ LoginPage.pg_username (LoginPage.page w') = "alice"
  ∧ LoginFormStateManager.sessionStorage
      (LoginFormStateManager.env (LoginPage.form w'))
    !! LoginPage.login_error_key
    = Some "Incorrect username or password".
Proof.
  intros w'.
  destruct (failed_login_keeps_form Sample3.server
              (Sample3.typed "alice" "wrong")
              {| AuthContext.detail := Some "Incorrect username or password";
                 AuthContext.message := Some "Request failed" |})
    as (Herr & _ & Hu & _ & _ & Hstored & _);
    [by split_and! | reflexivity..|].
  fold w' in Herr, Hu, Hstored. rewrite Herr, Hu, Hstored. by split_and!.
Defined.

Lemma successful_login_clears_form_witness :
  let w' := LoginPage.handleSubmit Sample3.server
              (Sample3.typed "alice" "secret") in
  LoginFormStateManager.sessionStorage
    (LoginFormStateManager.env (LoginPage.form w'))
  !! LoginFormStateManager.username_key = None
  ∧ AuthContext.isAuthenticated (LoginPage.auth w') = true.
Proof.
  intros w'.
  destruct (successful_login_clears_form Sample3.server
              (Sample3.typed "alice" "secret"))
    as (Hu & _ & _ & _ & _ & _ & _ & Hauth); [reflexivity..|].
  by split.
Defined.

Lemma successful_login_leaves_nothing_stored_witness :
  let w' := LoginPage.submitted Sample3.server
              (Sample3.typed "alice" "secret") in
  LoginFormStateManager.sessionStorage
    (LoginFormStateManager.env (LoginPage.form w'))
  !! LoginFormStateManager.username_key = None
  ∧ LoginPage.pg_username (LoginPage.page w') = "alice"
  ∧ AuthContext.isAuthenticated (LoginPage.auth w') = true.
Proof.
  intros w'.
  destruct (successful_login_leaves_nothing_stored Sample3.server
              (Sample3.typed "alice" "secret"))
    as (Hu & _ & _ & _ & _ & _ & _ & Hauth & Hpu & _);
    [by split_and! | reflexivity..|].
  fold w' in Hu, Hauth, Hpu. rewrite Hpu. by split_and!.
Defined.

Lemma login_page_mirrors_storage_witness :
  LoginPage.mirrored (Sample3.typed "alice" "secret").
Proof.
  destruct (login_page_mirrors_storage
              {| LoginFormStateManager.hasWindow := true;
                 LoginFormStateManager.sessionStorage := ∅ |}
              Sample3.signed_out
              [LoginPage.ChangeUsername "alice";
               LoginPage.ChangePassword "secret"] eq_refl) as [_ Hmir].
  by destruct (Hmir eq_refl).
Defined.

End MoreWitnesses.
